(** * Authentication middleware and route handlers of the Sequelize
      authentication walkthrough, embedded in Rocq.

    The JavaScript of the walkthrough (middleware/index.js and
    controllers/AuthController.js, given as snippets in the README) is
    embedded as state-passing code over a small model of JavaScript values.
    The password hashing library, the token library and the ORM model are
    collaborators: the handlers are written against an interface [Env], and
    reference collaborators are given further down.  The posts seeder
    (20210302171430-posts.js) is embedded in the same way in [Seeder]. *)

From Stdlib Require Import ZArith String Ascii List Lia.
From stdpp Require Import base option list strings gmap.

Open Scope string_scope.
Open Scope list_scope.
Open Scope Z_scope.

Set Warnings "-register-all".

(** ** JavaScript values *)

(** Numbers are integers (identifiers, status codes, the work factor);
    objects are ordered lists of fields, as [JSON.stringify] prints them. *)
Inductive JsVal : Type :=
| JUndefined
| JNull
| JBool (b : bool)
| JNum (z : Z)
| JStr (s : string)
| JObj (fields : list (string * JsVal)).

(** Induction on values, through the fields of objects. *)
Section JsVal_nested_induction.
Variable P : JsVal -> Prop.
Hypothesis P_undefined : P JUndefined.
Hypothesis P_null : P JNull.
Hypothesis P_bool : forall b, P (JBool b).
Hypothesis P_num : forall z, P (JNum z).
Hypothesis P_str : forall s, P (JStr s).
Hypothesis P_obj : forall fs, Forall (fun kv => P (snd kv)) fs -> P (JObj fs).

Fixpoint JsVal_nested_ind (v : JsVal) : P v :=
  match v with
  | JUndefined => P_undefined
  | JNull => P_null
  | JBool b => P_bool b
  | JNum z => P_num z
  | JStr s => P_str s
  | JObj fs =>
      P_obj fs
        ((fix all (l : list (string * JsVal)) : Forall (fun kv => P (snd kv)) l :=
            match l with
            | [] => List.Forall_nil _
            | kv :: l' =>
                List.Forall_cons _ kv l' (JsVal_nested_ind (snd kv)) (all l')
            end) fs)
  end.
End JsVal_nested_induction.

(** [ToBoolean]: what [if (v)] and [v && ...] test. *)
Definition truthy (v : JsVal) : bool :=
  match v with
  | JUndefined | JNull => false
  | JBool b => b
  | JNum z => negb (z =? 0)
  | JStr s => negb (String.eqb s "")
  | JObj _ => true
  end.

Fixpoint assoc {A : Type} (k : string) (l : list (string * A)) : option A :=
  match l with
  | [] => None
  | (k', v) :: l' => if String.eqb k k' then Some v else assoc k l'
  end.

Definition field_names (v : JsVal) : list string :=
  match v with
  | JObj fs => map fst fs
  | _ => []
  end.

(** Errors a JavaScript computation can raise. *)
Inductive Exn : Type :=
| TypeError (msg : string)
| Raised (msg : string).

Inductive Completion (A : Type) : Type :=
| Normal (a : A)
| Throw (e : Exn).
Arguments Normal {A} a.
Arguments Throw {A} e.

(** Property access [v[k]] / [v.k]: a [TypeError] on [undefined] and
    [null], the field or [undefined] on an object, [undefined] on the other
    primitives (none of the names read by the handlers is a method or
    property of a primitive). *)
Definition prop (v : JsVal) (k : string) : Completion JsVal :=
  match v with
  | JUndefined | JNull =>
      Throw (TypeError
               ("Cannot read properties of undefined (reading '" +:+ k +:+ "')"))
  | JObj fs => Normal (default JUndefined (assoc k fs))
  | _ => Normal JUndefined
  end.

(** The value of [v[k]] where the access does not throw. *)
Definition field (k : string) (v : JsVal) : JsVal :=
  match v with
  | JObj fs => default JUndefined (assoc k fs)
  | _ => JUndefined
  end.

(** [String.prototype.split] with a one-character separator: every
    occurrence of the separator ends a piece; the empty string gives one
    empty piece. *)
Fixpoint split (sep : ascii) (s : string) : list string :=
  match s with
  | EmptyString => [EmptyString]
  | String c s' =>
      if Ascii.eqb c sep then EmptyString :: split sep s'
      else match split sep s' with
           | [] => [String c EmptyString]
           | piece :: pieces => String c piece :: pieces
           end
  end.

(** [a[i]] on an array of strings: [undefined] when out of range. *)
Definition index (a : list string) (i : nat) : JsVal :=
  match a !! i with
  | Some s => JStr s
  | None => JUndefined
  end.

(** ** Requests, responses and the world *)

(** [req.headers] maps lower-cased header names to strings; [req.body] is
    the parsed JSON body. *)
Record Req : Type := mkReq {
  headers : gmap string string;
  body : JsVal
}.

(** The response object: the status code (200 until [res.status] is
    called), the body handed to [res.send] if any, and [res.locals]. *)
Record Res : Type := mkRes {
  statusCode : Z;
  sent : option JsVal;
  locals : gmap string JsVal
}.

Definition fresh_res : Res :=
  {| statusCode := 200; sent := None; locals := ∅ |}.

(** [{ status: 'Error', msg: 'Unauthorized' }] *)
Definition unauthorized : JsVal :=
  JObj [("status", JStr "Error"); ("msg", JStr "Unauthorized")].

(** The response after [res.status(401).send({ status: 'Error', msg:
    'Unauthorized' })]. *)
Definition rejected (r : Res) : Res :=
  mkRes 401 (Some unauthorized) (locals r).

(** [{ email, passwordDigest, name }] *)
Definition user_values (email passwordDigest name : JsVal) : JsVal :=
  JObj [("email", email); ("passwordDigest", passwordDigest); ("name", name)].

(** [{ where: { email }, raw: true }] *)
Definition by_email (email : JsVal) : JsVal :=
  JObj [("where", JObj [("email", email)]); ("raw", JBool true)].

(** Calls made to the collaborators, in order. *)
Inductive Call : Type :=
| CallHash (data rounds : JsVal)
| CallCompare (data encrypted : JsVal)
| CallSign (payload secret : JsVal)
| CallVerify (token secret : JsVal)
| CallFindOne (options : JsVal)
| CallCreate (values : JsVal).

(** A library or ORM call: it reads and updates what lies outside the
    process (database, entropy, clock) and returns or throws. *)
Definition Lib (Ext : Type) : Type := Ext -> Completion JsVal * Ext.

(** The collaborators and the configuration read from the environment. *)
Record Env (Ext : Type) : Type := mkEnv {
  bcrypt_hash : JsVal -> JsVal -> Lib Ext;
  bcrypt_compare : JsVal -> JsVal -> Lib Ext;
  jwt_sign : JsVal -> JsVal -> Lib Ext;
  jwt_verify : JsVal -> JsVal -> Lib Ext;
  User_findOne : JsVal -> Lib Ext;
  User_create : JsVal -> Lib Ext;
  SALT_ROUNDS : JsVal;
  APP_SECRET : JsVal
}.
Arguments bcrypt_hash {Ext} _ _ _ _.
Arguments bcrypt_compare {Ext} _ _ _ _.
Arguments jwt_sign {Ext} _ _ _ _.
Arguments jwt_verify {Ext} _ _ _ _.
Arguments User_findOne {Ext} _ _ _.
Arguments User_create {Ext} _ _ _.
Arguments SALT_ROUNDS {Ext} _.
Arguments APP_SECRET {Ext} _.

Record World (Ext : Type) : Type := mkWorld {
  ext : Ext;
  res : Res;
  trace : list Call;
  next_calls : nat
}.
Arguments mkWorld {Ext} _ _ _ _.
Arguments ext {Ext} _.
Arguments res {Ext} _.
Arguments trace {Ext} _.
Arguments next_calls {Ext} _.

(** ** The monad of handler code: state plus exceptions.  A throw keeps
    the state reached so far, as in JavaScript. *)
Definition M (Ext A : Type) : Type := World Ext -> Completion A * World Ext.

Definition ret {Ext A} (a : A) : M Ext A := fun w => (Normal a, w).

Definition throw {Ext A} (e : Exn) : M Ext A := fun w => (Throw e, w).

Definition bind {Ext A B} (m : M Ext A) (k : A -> M Ext B) : M Ext B :=
  fun w =>
    match m w with
    | (Normal a, w') => k a w'
    | (Throw e, w') => (Throw e, w')
    end.

Definition try_catch {Ext A} (m : M Ext A) (h : Exn -> M Ext A) : M Ext A :=
  fun w =>
    match m w with
    | (Normal a, w') => (Normal a, w')
    | (Throw e, w') => h e w'
    end.

Declare Scope js_scope.
Delimit Scope js_scope with js.
Notation "x <- m ;; k" := (bind m (fun x => k))
  (at level 100, m at next level, right associativity) : js_scope.
Notation "m ;;; k" := (bind m (fun _ => k))
  (at level 100, right associativity) : js_scope.
Open Scope js_scope.

Section Handlers.
Context {Ext : Type} (E : Env Ext).

(** A logged call to a collaborator. *)
Definition call (c : Call) (f : Lib Ext) : M Ext JsVal :=
  fun w =>
    let (r, x) := f (ext w) in
    (r, mkWorld x (res w) (trace w ++ [c]) (next_calls w)).

Definition set_res (f : Res -> Res) : M Ext unit :=
  fun w => (Normal tt, mkWorld (ext w) (f (res w)) (trace w) (next_calls w)).

(** [res.status(code)] *)
Definition res_status (code : Z) : M Ext unit :=
  set_res (fun r => mkRes code (sent r) (locals r)).

(** [res.send(b)] *)
Definition res_send (b : JsVal) : M Ext unit :=
  set_res (fun r => mkRes (statusCode r) (Some b) (locals r)).

(** [res.locals[k] = v] *)
Definition set_local (k : string) (v : JsVal) : M Ext unit :=
  set_res (fun r => mkRes (statusCode r) (sent r) (<[k := v]> (locals r))).

(** [res.locals[k]] *)
Definition get_local (k : string) : M Ext JsVal :=
  fun w => (Normal (default JUndefined (locals (res w) !! k)), w).

(** [next()]: hands the request to the next layer.  The router catches
    what later layers throw, so the call itself returns. *)
Definition next : M Ext unit :=
  fun w => (Normal tt, mkWorld (ext w) (res w) (trace w) (S (next_calls w))).

(** [v[k]] / [v.k] *)
Definition get_field (v : JsVal) (k : string) : M Ext JsVal :=
  fun w => (prop v k, w).

(** [req.headers[k]] *)
Definition header (req : Req) (k : string) : JsVal :=
  match headers req !! k with
  | Some s => JStr s
  | None => JUndefined
  end.

(** [v.split(sep)]: only strings have the method. *)
Definition method_split (v : JsVal) (sep : ascii) : M Ext (list string) :=
  match v with
  | JStr s => ret (split sep s)
  | JUndefined | JNull =>
      throw (TypeError "Cannot read properties of undefined (reading 'split')")
  | _ => throw (TypeError "split is not a function")
  end.

(** [res.status(401).send({ status: 'Error', msg: 'Unauthorized' })] *)
Definition reject : M Ext unit :=
  res_status 401 ;;; res_send unauthorized.

(** *** middleware/index.js *)

Definition hashPassword (password : JsVal) : M Ext JsVal :=
  hashedPassword <- call (CallHash password (SALT_ROUNDS E))
                         (bcrypt_hash E password (SALT_ROUNDS E)) ;;
  ret hashedPassword.

Definition comparePassword (storedPassword password : JsVal) : M Ext JsVal :=
  passwordMatch <- call (CallCompare password storedPassword)
                        (bcrypt_compare E password storedPassword) ;;
  ret passwordMatch.

Definition createToken (payload : JsVal) : M Ext JsVal :=
  token <- call (CallSign payload (APP_SECRET E))
                (jwt_sign E payload (APP_SECRET E)) ;;
  ret token.

Definition verifyToken (req : Req) : M Ext unit :=
  token <- get_local "token" ;;
  try_catch
    (payload <- call (CallVerify token (APP_SECRET E))
                     (jwt_verify E token (APP_SECRET E)) ;;
     if truthy payload then next
     else reject)
    (fun error => reject).

Definition stripToken (req : Req) : M Ext unit :=
  try_catch
    (pieces <- method_split (header req "authorization") " " ;;
     let token := index pieces 1 in
     if truthy token then set_local "token" token ;;; next
     else ret tt)
    (fun error => reject).

(** Two layers of a route, as in [router.post(path, stripToken,
    verifyToken, ...)]: the second runs when the first called [next]. *)
Definition layers (first second : M Ext unit) : M Ext unit :=
  fun w =>
    match first w with
    | (Normal _, w') =>
        if Nat.ltb (next_calls w) (next_calls w') then second w'
        else (Normal tt, w')
    | (Throw e, w') => (Throw e, w')
    end.

(** *** controllers/AuthController.js *)

Definition Login (req : Req) : M Ext unit :=
  try_catch
    (email <- get_field (body req) "email" ;;
     let options :=
       JObj [("where", JObj [("email", email)]); ("raw", JBool true)] in
     user <- call (CallFindOne options) (User_findOne E options) ;;
     cond <- (if truthy user then
                passwordDigest <- get_field user "passwordDigest" ;;
                password <- get_field (body req) "password" ;;
                comparePassword passwordDigest password
              else ret user) ;;
     if truthy cond then
       id <- get_field user "id" ;;
       user_email <- get_field user "email" ;;
       let payload := JObj [("id", id); ("email", user_email)] in
       token <- createToken payload ;;
       res_send (JObj [("user", payload); ("token", token)])
     else reject)
    (fun error => throw error).

Definition Register (req : Req) : M Ext unit :=
  try_catch
    (email <- get_field (body req) "email" ;;
     password <- get_field (body req) "password" ;;
     name <- get_field (body req) "name" ;;
     passwordDigest <- hashPassword password ;;
     let values :=
       JObj [("email", email); ("passwordDigest", passwordDigest);
             ("name", name)] in
     user <- call (CallCreate values) (User_create E values) ;;
     res_send user)
    (fun error => throw error).

End Handlers.

(** ** A self-delimiting text encoding of values

    Used by the reference collaborators below to embed a value in an opaque
    string (a token, a digest) and to read it back. *)
Module Codec.

Fixpoint encode_pos (p : positive) : string :=
  match p with
  | xH => "."
  | xO q => String "0" (encode_pos q)
  | xI q => String "1" (encode_pos q)
  end.

Fixpoint decode_pos (s : string) : option (positive * string) :=
  match s with
  | EmptyString => None
  | String c r =>
      if Ascii.eqb c "." then Some (xH, r)
      else if Ascii.eqb c "0" then
        match decode_pos r with
        | Some (q, r') => Some (xO q, r')
        | None => None
        end
      else if Ascii.eqb c "1" then
        match decode_pos r with
        | Some (q, r') => Some (xI q, r')
        | None => None
        end
      else None
  end.

Definition encode_Z (z : Z) : string :=
  match z with
  | Z0 => "z"
  | Zpos p => String "p" (encode_pos p)
  | Zneg p => String "m" (encode_pos p)
  end.

Definition decode_Z (s : string) : option (Z * string) :=
  match s with
  | EmptyString => None
  | String c r =>
      if Ascii.eqb c "z" then Some (Z0, r)
      else if Ascii.eqb c "p" then
        match decode_pos r with
        | Some (p, r') => Some (Zpos p, r')
        | None => None
        end
      else if Ascii.eqb c "m" then
        match decode_pos r with
        | Some (p, r') => Some (Zneg p, r')
        | None => None
        end
      else None
  end.

(** A string is written character by character, each after a ['c'], and
    closed by ['e']. *)
Fixpoint encode_str (s : string) : string :=
  match s with
  | EmptyString => "e"
  | String c r => String "c" (String c (encode_str r))
  end.

Fixpoint decode_str (s : string) : option (string * string) :=
  match s with
  | EmptyString => None
  | String t r =>
      if Ascii.eqb t "e" then Some (EmptyString, r)
      else if Ascii.eqb t "c" then
        match r with
        | EmptyString => None
        | String c r' =>
            match decode_str r' with
            | Some (s', rest) => Some (String c s', rest)
            | None => None
            end
        end
      else None
  end.

Fixpoint encode (v : JsVal) : string :=
  match v with
  | JUndefined => "u"
  | JNull => "n"
  | JBool true => "t"
  | JBool false => "f"
  | JNum z => String "i" (encode_Z z)
  | JStr s => String "s" (encode_str s)
  | JObj fs =>
      String "o"
        ((fix encode_fields (l : list (string * JsVal)) : string :=
            match l with
            | [] => "e"
            | (k, x) :: l' =>
                String "c" (encode_str k +:+ encode x +:+ encode_fields l')
            end) fs)
  end.

Fixpoint encode_fields (l : list (string * JsVal)) : string :=
  match l with
  | [] => "e"
  | (k, x) :: l' => String "c" (encode_str k +:+ encode x +:+ encode_fields l')
  end.

(** The decoder reads one value from the front of its input and returns
    the rest; [n] bounds the nesting it will follow. *)
Fixpoint decode_fuel (n : nat) (s : string) : option (JsVal * string) :=
  match n with
  | O => None
  | S n' =>
      match s with
      | EmptyString => None
      | String t r =>
          if Ascii.eqb t "u" then Some (JUndefined, r)
          else if Ascii.eqb t "n" then Some (JNull, r)
          else if Ascii.eqb t "t" then Some (JBool true, r)
          else if Ascii.eqb t "f" then Some (JBool false, r)
          else if Ascii.eqb t "i" then
            match decode_Z r with
            | Some (z, r') => Some (JNum z, r')
            | None => None
            end
          else if Ascii.eqb t "s" then
            match decode_str r with
            | Some (x, r') => Some (JStr x, r')
            | None => None
            end
          else if Ascii.eqb t "o" then
            match decode_fields n' r with
            | Some (fs, r') => Some (JObj fs, r')
            | None => None
            end
          else None
      end
  end
with decode_fields (n : nat) (s : string)
  : option (list (string * JsVal) * string) :=
  match n with
  | O => None
  | S n' =>
      match s with
      | EmptyString => None
      | String t r =>
          if Ascii.eqb t "e" then Some ([], r)
          else if Ascii.eqb t "c" then
            match decode_str r with
            | Some (k, r1) =>
                match decode_fuel n' r1 with
                | Some (x, r2) =>
                    match decode_fields n' r2 with
                    | Some (fs, r3) => Some ((k, x) :: fs, r3)
                    | None => None
                    end
                | None => None
                end
            | None => None
            end
          else None
      end
  end.

(** Fuel that suffices to read a value back. *)
Fixpoint need (v : JsVal) : nat :=
  match v with
  | JObj fs =>
      S ((fix need_fields (l : list (string * JsVal)) : nat :=
            match l with
            | [] => 1%nat
            | (_, x) :: l' => S (need x + need_fields l')
            end) fs)
  | _ => 1%nat
  end.

Fixpoint need_fields (l : list (string * JsVal)) : nat :=
  match l with
  | [] => 1%nat
  | (_, x) :: l' => S (need x + need_fields l')
  end.

(** Every constructor costs at least one character, so the length of the
    input is fuel enough. *)
Definition decode (s : string) : option (JsVal * string) :=
  decode_fuel (String.length s) s.

End Codec.

(** ** Reference collaborators

    The hashing library, the token library and the [User] model are not
    part of the sources; the reference versions below follow their
    description in the specification. *)
Module Ref.

(** What lies outside the process: the rows of the users table and the
    entropy the hashing library draws its salts from. *)
Record Store : Type := mkStore {
  rows : list JsVal;
  entropy : list string
}.

Definition same_string (a b : JsVal) : bool :=
  match a, b with
  | JStr x, JStr y => String.eqb x y
  | _, _ => false
  end.

Section Primitives.
(** The one-way function under the hasher (work factor, salt, plaintext)
    and the symmetric signing algorithm (secret, message). *)
Variable kdf : Z -> string -> string -> string.
Variable mac : string -> string -> string.

(** Modelled from the spec: the credential hasher (the bcrypt library) is
    missing from the sources.  4.1: [hash] applies a salted, adaptive
    one-way hash with cost parameter [workFactor]; the digest is an opaque
    string in which the salt is embedded; two hashes of one plaintext
    differ because each draws a new salt. *)
Definition hash (data rounds : JsVal) : Lib Store :=
  fun x =>
    match data, rounds with
    | JStr p, JNum cost =>
        let salt := hd "" (entropy x) in
        let digest :=
          Codec.encode
            (JObj [("cost", JNum cost); ("salt", JStr salt);
                   ("hash", JStr (kdf cost salt p))]) in
        (Normal (JStr digest), mkStore (rows x) (tl (entropy x)))
    | _, _ => (Throw (Raised "data and salt arguments required"), x)
    end.

(** Modelled from the spec: the comparison of the credential hasher,
    missing from the sources.  4.1: [compare] recomputes the hash with the
    salt embedded in the digest and checks equality; it returns false on
    any mismatch and on malformed digest input, and never throws. *)
Definition compare (data encrypted : JsVal) : Lib Store :=
  fun x =>
    (Normal
       (JBool
          match data, encrypted with
          | JStr p, JStr d =>
              match Codec.decode d with
              | Some (parsed, EmptyString) =>
                  match field "cost" parsed, field "salt" parsed,
                        field "hash" parsed with
                  | JNum cost, JStr salt, JStr h =>
                      String.eqb h (kdf cost salt p)
                  | _, _, _ => false
                  end
              | _ => false
              end
          | _, _ => false
          end), x).

(** Modelled from the spec: the token issuer (the jsonwebtoken library) is
    missing from the sources.  4.2: [issue] serializes the payload, signs it
    with the shared secret using a symmetric signing algorithm and returns
    the resulting token string; it is deterministic per secret and adds no
    expiration. *)
Definition sign (payload secret : JsVal) : Lib Store :=
  fun x =>
    match secret with
    | JStr key =>
        let text := Codec.encode payload in
        (Normal (JStr (text +:+ mac key text)), x)
    | _ => (Throw (Raised "secretOrPrivateKey must have a value"), x)
    end.

(** Modelled from the spec: the token verifier (the jsonwebtoken library),
    missing from the sources.  4.2: [verify] recomputes the signature and
    checks integrity; it fails when the token is malformed or the signature
    does not match, and otherwise returns the claims payload. *)
Definition verify (token secret : JsVal) : Lib Store :=
  fun x =>
    match token, secret with
    | JStr t, JStr key =>
        match Codec.decode t with
        | Some (claims, signature) =>
            if String.eqb signature (mac key (Codec.encode claims))
            then (Normal claims, x)
            else (Throw (Raised "invalid signature"), x)
        | None => (Throw (Raised "jwt malformed"), x)
        end
    | _, _ => (Throw (Raised "jwt must be provided"), x)
    end.

(** Modelled from the spec: the [User] model (models/user.js and its
    migration) is missing from the sources.  4.5: lookup of a user record
    by email; absence is not an error. *)
Definition findOne (options : JsVal) : Lib Store :=
  fun x =>
    let email := field "email" (field "where" options) in
    (Normal
       (default JNull
          (List.find (fun row => same_string (field "email" row) email)
                     (rows x))), x).

(** Modelled from the spec: creation of a user record by the [User] model,
    missing from the sources.  3 and 4.4: the record holds email, digest
    and name; the email is unique, and a second record with a stored email
    is refused with a storage error. *)
Definition create (values : JsVal) : Lib Store :=
  fun x =>
    let email := field "email" values in
    if existsb (fun row => same_string (field "email" row) email) (rows x)
    then (Throw (Raised "SequelizeUniqueConstraintError"), x)
    else
      let row :=
        JObj [("id", JNum (Z.of_nat (S (length (rows x)))));
              ("name", field "name" values);
              ("email", email);
              ("passwordDigest", field "passwordDigest" values)] in
      (Normal row, mkStore (rows x ++ [row]) (entropy x)).

Definition env (rounds : Z) (secret : string) : Env Store :=
  {| bcrypt_hash := hash;
     bcrypt_compare := compare;
     jwt_sign := sign;
     jwt_verify := verify;
     User_findOne := findOne;
     User_create := create;
     SALT_ROUNDS := JNum rounds;
     APP_SECRET := JStr secret |}.

End Primitives.

(** Stand-ins for the two primitives, for running the handlers. *)
Definition demo_kdf (cost : Z) (salt plaintext : string) : string :=
  String.rev (salt +:+ plaintext).

Definition demo_mac (key message : string) : string :=
  String.rev (message +:+ key).

Definition demo : Env Store := env demo_kdf demo_mac 12 "supersecretkey".

Definition start (x : Store) : World Store := mkWorld x fresh_res [] 0.

(** Sample data: the registration of the walkthrough and the store after
    it. *)
Definition request (b : JsVal) : Req := mkReq ∅ b.

Definition john : JsVal :=
  JObj [("name", JStr "John Doe"); ("email", JStr "john@mail.com");
        ("password", JStr "1234")].

Definition credentials (email password : string) : JsVal :=
  JObj [("email", JStr email); ("password", JStr password)].

Definition empty : Store := mkStore [] ["Xq3"; "r7Z"].

Definition registered : Store :=
  Eval vm_compute in ext (snd (Register demo (request john) (start empty))).

End Ref.

(** [s] has no character [sep]. *)
Definition free_of (sep : ascii) (s : string) : bool :=
  forallb (fun c => negb (Ascii.eqb c sep)) (list_ascii_of_string s).

(** ** Protected routes *)

Section Routes.
Context {Ext : Type} (E : Env Ext).

(** [router.post(path, middleware.stripToken, middleware.verifyToken,
    handler)]: the handler is the layer behind the two middlewares. *)
Definition protected (handler : Req -> M Ext unit) (req : Req) : M Ext unit :=
  layers (stripToken req) (layers (verifyToken E req) (handler req)).

End Routes.

(** ** Collaborators that fail

    The reference collaborators with one of them out of order, for running
    the error paths of the handlers. *)
Module Faulty.

Definition fails (e : Exn) : Lib Ref.Store := fun x => (Throw e, x).

Definition db_down (e : Exn) : Env Ref.Store :=
  {| bcrypt_hash := Ref.hash Ref.demo_kdf;
     bcrypt_compare := Ref.compare Ref.demo_kdf;
     jwt_sign := Ref.sign Ref.demo_mac;
     jwt_verify := Ref.verify Ref.demo_mac;
     User_findOne := fun _ => fails e;
     User_create := fun _ => fails e;
     SALT_ROUNDS := JNum 12;
     APP_SECRET := JStr "supersecretkey" |}.

Definition hasher_down (e : Exn) : Env Ref.Store :=
  {| bcrypt_hash := fun _ _ => fails e;
     bcrypt_compare := fun _ _ => fails e;
     jwt_sign := Ref.sign Ref.demo_mac;
     jwt_verify := Ref.verify Ref.demo_mac;
     User_findOne := Ref.findOne;
     User_create := Ref.create;
     SALT_ROUNDS := JNum 12;
     APP_SECRET := JStr "supersecretkey" |}.

Definition signer_down (e : Exn) : Env Ref.Store :=
  {| bcrypt_hash := Ref.hash Ref.demo_kdf;
     bcrypt_compare := Ref.compare Ref.demo_kdf;
     jwt_sign := fun _ _ => fails e;
     jwt_verify := fun _ _ => fails e;
     User_findOne := Ref.findOne;
     User_create := Ref.create;
     SALT_ROUNDS := JNum 12;
     APP_SECRET := JStr "supersecretkey" |}.

(** The reference collaborators with a comparison that, as the bcrypt
    library does, throws when it is given no password string. *)
Definition strict : Env Ref.Store :=
  {| bcrypt_hash := Ref.hash Ref.demo_kdf;
     bcrypt_compare :=
       fun data encrypted =>
         match data with
         | JStr _ => Ref.compare Ref.demo_kdf data encrypted
         | _ => fails (Raised "data and hash arguments required")
         end;
     jwt_sign := Ref.sign Ref.demo_mac;
     jwt_verify := Ref.verify Ref.demo_mac;
     User_findOne := Ref.findOne;
     User_create := Ref.create;
     SALT_ROUNDS := JNum 12;
     APP_SECRET := JStr "supersecretkey" |}.

End Faulty.

(** ** The posts seeder (20210302171430-posts.js) *)
Module Seeder.

(** Operations of the seeder on its collaborators, in order: a call to a
    faker generator, [queryInterface.bulkInsert], [queryInterface.bulkDelete]. *)
Inductive Op : Type :=
| Faker (generator : string)
| BulkInsert (table : string) (rows : list JsVal)
| BulkDelete (table : string).

(** The faker generators the seeder uses and the query interface it is
    handed.  What a generator returns (a string, a date) is kept as the
    value it is. *)
Record Env (Ext : Type) : Type := mkEnv {
  faker_lorem_sentence : Lib Ext;
  faker_lorem_paragraph : Lib Ext;
  faker_image_food : Lib Ext;
  faker_date_past : Lib Ext;
  faker_date_recent : Lib Ext;
  bulkInsert : string -> list JsVal -> Lib Ext;
  bulkDelete : string -> Lib Ext
}.
Arguments faker_lorem_sentence {Ext} _ _.
Arguments faker_lorem_paragraph {Ext} _ _.
Arguments faker_image_food {Ext} _ _.
Arguments faker_date_past {Ext} _ _.
Arguments faker_date_recent {Ext} _ _.
Arguments bulkInsert {Ext} _ _ _ _.
Arguments bulkDelete {Ext} _ _ _.

Record State (Ext : Type) : Type := mkState {
  outside : Ext;
  log : list Op
}.
Arguments mkState {Ext} _ _.
Arguments outside {Ext} _.
Arguments log {Ext} _.

Definition Task (Ext A : Type) : Type := State Ext -> Completion A * State Ext.

Definition unit_ {Ext A} (a : A) : Task Ext A := fun st => (Normal a, st).

Definition then_ {Ext A B} (m : Task Ext A) (k : A -> Task Ext B) : Task Ext B :=
  fun st =>
    match m st with
    | (Normal a, st') => k a st'
    | (Throw e, st') => (Throw e, st')
    end.

(** A logged call. *)
Definition ask {Ext} (op : Op) (f : Lib Ext) : Task Ext JsVal :=
  fun st =>
    let (r, x) := f (outside st) in
    (r, mkState x (log st ++ [op])).

(** [Array.prototype.map]: the callback runs on the elements in index
    order. *)
Fixpoint map_array {Ext A B} (f : A -> Task Ext B) (l : list A) : Task Ext (list B) :=
  match l with
  | [] => unit_ []
  | a :: l' =>
      then_ (f a) (fun b => then_ (map_array f l') (fun bs => unit_ (b :: bs)))
  end.

Section Seed.
Context {Ext : Type} (E : Env Ext).

(** The callback of the [map]: one post. *)
Definition post (_ : JsVal) : Task Ext JsVal :=
  then_ (ask (Faker "lorem.sentence") (faker_lorem_sentence E)) (fun title =>
  then_ (ask (Faker "lorem.paragraph") (faker_lorem_paragraph E)) (fun body =>
  then_ (ask (Faker "image.food") (faker_image_food E)) (fun image =>
  then_ (ask (Faker "date.past") (faker_date_past E)) (fun createdAt =>
  then_ (ask (Faker "date.recent") (faker_date_recent E)) (fun updatedAt =>
  unit_ (JObj [("title", title); ("body", body); ("image", image);
               ("createdAt", createdAt); ("updatedAt", updatedAt)])))))).

Definition up : Task Ext unit :=
  then_ (map_array post (replicate 5 JUndefined)) (fun posts =>
  then_ (ask (BulkInsert "posts" posts) (bulkInsert E "posts" posts)) (fun _ =>
  unit_ tt)).

Definition down : Task Ext unit :=
  then_ (ask (BulkDelete "posts") (bulkDelete E "posts")) (fun _ => unit_ tt).

End Seed.

(** The operations of one post, and of [n] posts. *)
Definition post_ops : list Op :=
  [Faker "lorem.sentence"; Faker "lorem.paragraph"; Faker "image.food";
   Faker "date.past"; Faker "date.recent"].

Definition posts_ops (n : nat) : list Op := concat (replicate n post_ops).

Definition post_fields : list string :=
  ["title"; "body"; "image"; "createdAt"; "updatedAt"].

(** A table of rows and generators that count, for running the seeder. *)
Definition counting (label : string) : Lib (nat * list JsVal) :=
  fun x =>
    (Normal (JObj [(label, JNum (Z.of_nat (fst x)))]), (S (fst x), snd x)).

Definition demo : Env (nat * list JsVal) :=
  {| faker_lorem_sentence := counting "sentence";
     faker_lorem_paragraph := counting "paragraph";
     faker_image_food := counting "food";
     faker_date_past := counting "past";
     faker_date_recent := counting "recent";
     bulkInsert := fun _ rows x => (Normal JUndefined, (fst x, snd x ++ rows));
     bulkDelete := fun _ x => (Normal JUndefined, (fst x, [])) |}.

End Seeder.

(** * Properties *)

(** ** The codec reads back what it writes *)

Lemma app_String (a : ascii) (s r : string) :
  String a s +:+ r = String a (s +:+ r).
Proof. reflexivity. Qed.

Lemma app_assoc_string (a b c : string) : (a +:+ b) +:+ c = a +:+ (b +:+ c).
Proof.
  induction a as [|x a IH]; [reflexivity|].
  rewrite !app_String. now rewrite IH.
Qed.

Lemma length_app_string (a b : string) :
  String.length (a +:+ b) = (String.length a + String.length b)%nat.
Proof.
  induction a as [|x a IH]; [reflexivity|].
  rewrite app_String. cbn [String.length]. now rewrite IH.
Qed.

Lemma app_empty_r (a : string) : a +:+ "" = a.
Proof.
  induction a as [|x a IH]; [reflexivity|].
  rewrite app_String. now rewrite IH.
Qed.

Lemma encode_obj fs :
  Codec.encode (JObj fs) = String "o" (Codec.encode_fields fs).
Proof. reflexivity. Qed.

Lemma need_obj fs : Codec.need (JObj fs) = S (Codec.need_fields fs).
Proof. reflexivity. Qed.

Lemma decode_pos_encode p r :
  Codec.decode_pos (Codec.encode_pos p +:+ r) = Some (p, r).
Proof.
  induction p as [p IH|p IH|]; cbn [Codec.encode_pos]; rewrite app_String;
    cbn [Codec.decode_pos]; cbn; try rewrite IH; reflexivity.
Qed.

Lemma decode_Z_encode z r :
  Codec.decode_Z (Codec.encode_Z z +:+ r) = Some (z, r).
Proof.
  destruct z as [|p|p]; cbn [Codec.encode_Z]; rewrite app_String;
    cbn [Codec.decode_Z]; cbn; try rewrite decode_pos_encode; reflexivity.
Qed.

Lemma decode_str_encode s r :
  Codec.decode_str (Codec.encode_str s +:+ r) = Some (s, r).
Proof.
  induction s as [|c s IH]; cbn [Codec.encode_str].
  - reflexivity.
  - rewrite !app_String. cbn [Codec.decode_str]. cbn. now rewrite IH.
Qed.

Lemma decode_fields_encode fs :
  Forall (fun kv => forall n r, (Codec.need (snd kv) <= n)%nat ->
            Codec.decode_fuel n (Codec.encode (snd kv) +:+ r)
            = Some (snd kv, r)) fs ->
  forall n r, (Codec.need_fields fs <= n)%nat ->
    Codec.decode_fields n (Codec.encode_fields fs +:+ r) = Some (fs, r).
Proof.
  induction 1 as [|[k x] fs Hx _ IH]; intros n r Hn.
  - destruct n as [|n]; [cbn in Hn; lia|]. reflexivity.
  - cbn [Codec.need_fields] in Hn.
    destruct n as [|n]; [lia|].
    cbn [Codec.encode_fields]. rewrite app_String.
    cbn [Codec.decode_fields]. cbn [snd] in Hx.
    rewrite !app_assoc_string, decode_str_encode.
    change (Ascii.eqb "c" "e") with false.
    change (Ascii.eqb "c" "c") with true. cbn iota.
    rewrite Hx by lia. rewrite IH by lia. reflexivity.
Qed.

Lemma decode_fuel_encode v :
  forall n r, (Codec.need v <= n)%nat ->
    Codec.decode_fuel n (Codec.encode v +:+ r) = Some (v, r).
Proof.
  induction v as [| |b|z|s|fs IH] using JsVal_nested_ind; intros n r Hn;
    (destruct n as [|n]; [cbn in Hn; lia|]).
  - reflexivity.
  - reflexivity.
  - destruct b; reflexivity.
  - cbn [Codec.encode]. rewrite app_String. cbn [Codec.decode_fuel].
    rewrite decode_Z_encode. reflexivity.
  - cbn [Codec.encode]. rewrite app_String. cbn [Codec.decode_fuel].
    rewrite decode_str_encode. reflexivity.
  - rewrite need_obj in Hn. rewrite encode_obj, app_String.
    cbn [Codec.decode_fuel].
    rewrite (decode_fields_encode fs IH) by lia. reflexivity.
Qed.

Lemma need_fields_le_length fs :
  Forall (fun kv =>
            (Codec.need (snd kv) <= String.length (Codec.encode (snd kv)))%nat)
         fs ->
  (Codec.need_fields fs <= String.length (Codec.encode_fields fs))%nat.
Proof.
  induction 1 as [|[k x] fs Hx _ IH].
  - cbn. lia.
  - cbn [Codec.need_fields Codec.encode_fields String.length].
    rewrite !length_app_string. cbn [snd] in Hx. lia.
Qed.

Lemma need_le_length v :
  (Codec.need v <= String.length (Codec.encode v))%nat.
Proof.
  induction v as [| |b|z|s|fs IH] using JsVal_nested_ind;
    try (cbn; lia).
  - destruct b; cbn; lia.
  - rewrite need_obj, encode_obj. cbn [String.length].
    pose proof (need_fields_le_length fs IH). lia.
Qed.

(** Reading back a written value followed by any text gives the value and
    the text. *)
Lemma decode_encode v r : Codec.decode (Codec.encode v +:+ r) = Some (v, r).
Proof.
  unfold Codec.decode. apply decode_fuel_encode.
  rewrite length_app_string. pose proof (need_le_length v). lia.
Qed.

Lemma decode_encode_alone v : Codec.decode (Codec.encode v) = Some (v, "").
Proof. rewrite <- (app_empty_r (Codec.encode v)) at 1. apply decode_encode. Qed.

(** ** Running the middleware and the handlers *)

Ltac unfold_js :=
  unfold reject, res_status, res_send, set_local, get_local, next, get_field,
    call, set_res, try_catch, bind, ret, throw in *.

Lemma prop_truthy v k : truthy v = true -> prop v k = Normal (field k v).
Proof. destruct v; cbn; congruence. Qed.

(** A header without the separator is a single piece. *)
Lemma split_no_separator sep s :
  forallb (fun c => negb (Ascii.eqb c sep)) (list_ascii_of_string s) = true ->
  split sep s = [s].
Proof.
  induction s as [|c s IH]; [reflexivity|].
  cbn [list_ascii_of_string forallb split].
  destruct (Ascii.eqb c sep); [discriminate|]. cbn [negb andb].
  intros H. now rewrite (IH H).
Qed.

Lemma split_nonempty sep s : split sep s <> [].
Proof.
  destruct s as [|c s]; cbn; [discriminate|].
  destruct (Ascii.eqb c sep); [discriminate|].
  destruct (split sep s); discriminate.
Qed.

Section Running.
Context {Ext : Type} (E : Env Ext).

(** What [stripToken] does, by the shape of the authorization header. *)
Lemma stripToken_run (req : Req) (w : World Ext) :
  stripToken req w =
  match headers req !! "authorization" with
  | None =>
      (Normal tt,
       mkWorld (ext w) (rejected (res w)) (trace w) (next_calls w))
  | Some h =>
      match split " " h !! 1%nat with
      | Some t =>
          if String.eqb t "" then (Normal tt, w)
          else
            (Normal tt,
             mkWorld (ext w)
               (mkRes (statusCode (res w)) (sent (res w))
                      (<["token" := JStr t]> (locals (res w))))
               (trace w) (S (next_calls w)))
      | None => (Normal tt, w)
      end
  end.
Proof.
  unfold stripToken, header, method_split, index. unfold_js.
  destruct (headers req !! "authorization") as [h|]; [|reflexivity].
  destruct (split " " h !! 1%nat) as [t|]; [|reflexivity].
  cbn [truthy]. destruct (String.eqb t ""); reflexivity.
Qed.

(** [stripToken] returns normally on every request. *)
Lemma stripToken_never_throws (req : Req) (w : World Ext) :
  exists w', stripToken req w = (Normal tt, w').
Proof.
  rewrite stripToken_run.
  destruct (headers req !! "authorization") as [h|]; [|eauto].
  destruct (split " " h !! 1%nat) as [t|]; [|eauto].
  destruct (String.eqb t ""); eauto.
Qed.

(** Without the header, [stripToken] answers 401 and does not call
    [next]. *)
Lemma stripToken_absent (req : Req) (w : World Ext) :
  headers req !! "authorization" = None ->
  stripToken req w =
  (Normal tt, mkWorld (ext w) (rejected (res w)) (trace w) (next_calls w)).
Proof. intros H. rewrite stripToken_run, H. reflexivity. Qed.

(** With a header that has no space, [stripToken] neither answers nor
    calls [next]. *)
Lemma stripToken_no_space (req : Req) (w : World Ext) (h : string) :
  headers req !! "authorization" = Some h ->
  forallb (fun c => negb (Ascii.eqb c " ")) (list_ascii_of_string h) = true ->
  stripToken req w = (Normal tt, w).
Proof.
  intros Hh Hs. rewrite stripToken_run, Hh, (split_no_separator _ _ Hs).
  reflexivity.
Qed.

(** With [<scheme> <token>], a non-empty token and no further space, the
    token is stored in [res.locals] and [next] is called. *)
Lemma stripToken_bearer (req : Req) (w : World Ext) (scheme token : string) :
  headers req !! "authorization" = Some (scheme +:+ " " +:+ token) ->
  forallb (fun c => negb (Ascii.eqb c " ")) (list_ascii_of_string scheme) = true ->
  forallb (fun c => negb (Ascii.eqb c " ")) (list_ascii_of_string token) = true ->
  token <> "" ->
  stripToken req w =
  (Normal tt,
   mkWorld (ext w)
     (mkRes (statusCode (res w)) (sent (res w))
            (<["token" := JStr token]> (locals (res w))))
     (trace w) (S (next_calls w))).
Proof.
  intros Hh Hs Ht Hne. rewrite stripToken_run, Hh.
  assert (split " " (scheme +:+ " " +:+ token) = [scheme; token]) as ->.
  { clear Hh. induction scheme as [|c scheme IH].
    - change ("" +:+ " " +:+ token) with (String " " token).
      cbn [split]. change (Ascii.eqb " " " ") with true. cbn iota.
      now rewrite (split_no_separator _ _ Ht).
    - rewrite app_String. cbn [split].
      cbn [list_ascii_of_string forallb] in Hs.
      destruct (Ascii.eqb c " "); [discriminate|]. cbn [negb andb] in Hs.
      now rewrite (IH Hs). }
  cbn. apply String.eqb_neq in Hne. now rewrite Hne.
Qed.

(** What [verifyToken] does, by the result of [jwt.verify]. *)
Lemma verifyToken_run (req : Req) (w : World Ext) :
  let token := default JUndefined (locals (res w) !! "token") in
  let r := jwt_verify E token (APP_SECRET E) (ext w) in
  let logged := trace w ++ [CallVerify token (APP_SECRET E)] in
  verifyToken E req w =
  (Normal tt,
   match fst r with
   | Normal payload =>
       if truthy payload
       then mkWorld (snd r) (res w) logged (S (next_calls w))
       else mkWorld (snd r) (rejected (res w)) logged (next_calls w)
   | Throw _ => mkWorld (snd r) (rejected (res w)) logged (next_calls w)
   end).
Proof.
  cbv zeta. unfold verifyToken. unfold_js.
  destruct (jwt_verify E _ (APP_SECRET E) (ext w)) as [[payload|e] x]; cbn.
  - destruct (truthy payload); reflexivity.
  - reflexivity.
Qed.

Lemma Login_no_user req w email user x1 :
  prop (body req) "email" = Normal email ->
  User_findOne E (by_email email) (ext w) = (Normal user, x1) ->
  truthy user = false ->
  Login E req w =
  (Normal tt,
   mkWorld x1 (rejected (res w)) (trace w ++ [CallFindOne (by_email email)])
           (next_calls w)).
Proof.
  intros He Hf Hu. unfold Login, by_email in *. unfold_js.
  rewrite He. cbn. rewrite Hf. cbn. rewrite Hu. cbn. rewrite Hu. reflexivity.
Qed.

Lemma Login_mismatch req w email password user x1 verdict x2 :
  prop (body req) "email" = Normal email ->
  prop (body req) "password" = Normal password ->
  User_findOne E (by_email email) (ext w) = (Normal user, x1) ->
  truthy user = true ->
  bcrypt_compare E password (field "passwordDigest" user) x1
    = (Normal verdict, x2) ->
  truthy verdict = false ->
  Login E req w =
  (Normal tt,
   mkWorld x2 (rejected (res w))
     (trace w ++ [CallFindOne (by_email email);
                  CallCompare password (field "passwordDigest" user)])
     (next_calls w)).
Proof.
  intros He Hp Hf Hu Hc Hv. unfold Login, comparePassword, by_email in *.
  unfold_js.
  rewrite He. cbn. rewrite Hf. cbn. rewrite Hu.
  rewrite (prop_truthy user "passwordDigest" Hu). cbn.
  rewrite Hp. cbn. rewrite Hc. cbn. rewrite Hv.
  rewrite <- app_assoc. reflexivity.
Qed.

Lemma Login_match req w email password user x1 verdict x2 token x3 :
  prop (body req) "email" = Normal email ->
  prop (body req) "password" = Normal password ->
  User_findOne E (by_email email) (ext w) = (Normal user, x1) ->
  truthy user = true ->
  bcrypt_compare E password (field "passwordDigest" user) x1
    = (Normal verdict, x2) ->
  truthy verdict = true ->
  jwt_sign E (JObj [("id", field "id" user); ("email", field "email" user)])
           (APP_SECRET E) x2 = (Normal token, x3) ->
  Login E req w =
  (Normal tt,
   mkWorld x3
     (mkRes (statusCode (res w))
        (Some (JObj [("user", JObj [("id", field "id" user);
                                    ("email", field "email" user)]);
                     ("token", token)]))
        (locals (res w)))
     (trace w ++ [CallFindOne (by_email email);
                  CallCompare password (field "passwordDigest" user);
                  CallSign (JObj [("id", field "id" user);
                                  ("email", field "email" user)])
                           (APP_SECRET E)])
     (next_calls w)).
Proof.
  intros He Hp Hf Hu Hc Hv Hs.
  unfold Login, comparePassword, createToken, by_email in *. unfold_js.
  rewrite He. cbn. rewrite Hf. cbn. rewrite Hu.
  rewrite (prop_truthy user "passwordDigest" Hu). cbn.
  rewrite Hp. cbn. rewrite Hc. cbn. rewrite Hv.
  rewrite !(prop_truthy user _ Hu). cbn. rewrite Hs. cbn.
  rewrite <- !app_assoc. reflexivity.
Qed.

Lemma Register_created req w email password name digest x1 user x2 :
  prop (body req) "email" = Normal email ->
  prop (body req) "password" = Normal password ->
  prop (body req) "name" = Normal name ->
  bcrypt_hash E password (SALT_ROUNDS E) (ext w) = (Normal digest, x1) ->
  User_create E (user_values email digest name) x1 = (Normal user, x2) ->
  Register E req w =
  (Normal tt,
   mkWorld x2
     (mkRes (statusCode (res w)) (Some user) (locals (res w)))
     (trace w ++ [CallHash password (SALT_ROUNDS E);
                  CallCreate (user_values email digest name)])
     (next_calls w)).
Proof.
  intros He Hp Hn Hh Hc.
  unfold Register, hashPassword, user_values in *. unfold_js.
  rewrite He, Hp, Hn. cbn. rewrite Hh. cbn. rewrite Hc. cbn.
  rewrite <- app_assoc. reflexivity.
Qed.

Lemma Register_refused req w email password name digest x1 e x2 :
  prop (body req) "email" = Normal email ->
  prop (body req) "password" = Normal password ->
  prop (body req) "name" = Normal name ->
  bcrypt_hash E password (SALT_ROUNDS E) (ext w) = (Normal digest, x1) ->
  User_create E (user_values email digest name) x1 = (Throw e, x2) ->
  Register E req w =
  (Throw e,
   mkWorld x2 (res w)
     (trace w ++ [CallHash password (SALT_ROUNDS E);
                  CallCreate (user_values email digest name)])
     (next_calls w)).
Proof.
  intros He Hp Hn Hh Hc.
  unfold Register, hashPassword, user_values in *. unfold_js.
  rewrite He, Hp, Hn. cbn. rewrite Hh. cbn. rewrite Hc. cbn.
  rewrite <- app_assoc. reflexivity.
Qed.

End Running.

(** ** The extractor *)

(** C1 (the code departs from the claim): with an authorization header
    that has no separating space (["abc123"]), an empty token portion
    (["Bearer "]) or no content at all ([""]), [stripToken] returns without
    sending a response and without calling [next]: the world is left as it
    was, where the claim requires the 401 rejection. *)
Theorem stripToken_silent_without_token :
  forall (Ext : Type) (w : World Ext) (b : JsVal),
    stripToken (mkReq {[ "authorization" := "abc123" ]} b) w = (Normal tt, w)
    /\ stripToken (mkReq {[ "authorization" := "Bearer " ]} b) w = (Normal tt, w)
    /\ stripToken (mkReq {[ "authorization" := "" ]} b) w = (Normal tt, w).
Proof.
  intros Ext w b.
  repeat split; rewrite stripToken_run; cbn [headers];
    rewrite lookup_singleton_eq; reflexivity.
Qed.

(** ** The verifier *)

(** C2: whatever token the request carries, [verifyToken] returns
    normally; it calls [next] once and leaves the response alone exactly
    when [jwt.verify] returns a truthy payload; when [jwt.verify] returns a
    falsy payload or throws, [next] is not called and the response is 401
    with [{ status: 'Error', msg: 'Unauthorized' }], the same in both
    cases. *)
Theorem verifyToken_accepts_or_rejects :
  forall (Ext : Type) (E : Env Ext) (req : Req) (w : World Ext),
    let token := default JUndefined (locals (res w) !! "token") in
    let outcome := fst (jwt_verify E token (APP_SECRET E) (ext w)) in
    exists w',
      verifyToken E req w = (Normal tt, w') /\
      match outcome with
      | Normal payload =>
          if truthy payload
          then next_calls w' = S (next_calls w) /\ res w' = res w
          else next_calls w' = next_calls w /\ res w' = rejected (res w)
      | Throw _ => next_calls w' = next_calls w /\ res w' = rejected (res w)
      end /\
      statusCode (rejected (res w)) = 401 /\
      sent (rejected (res w)) = Some unauthorized.
Proof.
  intros Ext E req w token outcome.
  pose proof (verifyToken_run E req w) as Hrun. cbv zeta in Hrun.
  eexists. split; [exact Hrun|]. subst outcome token.
  destruct (jwt_verify E _ (APP_SECRET E) (ext w)) as [[payload|e] x]; cbn.
  - destruct (truthy payload); cbn; auto.
  - auto.
Qed.

(** ** Login *)

(** C3 (amended): a login whose email finds no user and a login whose
    email finds a user and whose password comparison returns a falsy value
    both return normally with status 401 and body [{ status: 'Error', msg:
    'Unauthorized' }]: the status and body of the two responses are the
    same.  (A comparison that throws is rethrown by the [catch]: no
    response is sent then.) *)
Theorem Login_failures_indistinguishable :
  forall (Ext : Type) (E : Env Ext)
         (req1 : Req) (w1 : World Ext) (email1 absent : JsVal) (x1 : Ext)
         (req2 : Req) (w2 : World Ext) (email2 password2 user2 : JsVal)
         (x2 : Ext) (verdict : JsVal) (x3 : Ext),
    prop (body req1) "email" = Normal email1 ->
    User_findOne E (by_email email1) (ext w1) = (Normal absent, x1) ->
    truthy absent = false ->
    prop (body req2) "email" = Normal email2 ->
    prop (body req2) "password" = Normal password2 ->
    User_findOne E (by_email email2) (ext w2) = (Normal user2, x2) ->
    truthy user2 = true ->
    bcrypt_compare E password2 (field "passwordDigest" user2) x2
      = (Normal verdict, x3) ->
    truthy verdict = false ->
    let r1 := Login E req1 w1 in
    let r2 := Login E req2 w2 in
    fst r1 = Normal tt /\ fst r2 = Normal tt /\
    statusCode (res (snd r1)) = 401 /\
    sent (res (snd r1)) = Some unauthorized /\
    statusCode (res (snd r2)) = statusCode (res (snd r1)) /\
    sent (res (snd r2)) = sent (res (snd r1)).
Proof.
  intros Ext E req1 w1 email1 absent x1 req2 w2 email2 password2 user2 x2
    verdict x3 He1 Hf1 Ha He2 Hp2 Hf2 Hu2 Hc Hv r1 r2.
  subst r1 r2.
  rewrite (Login_no_user E req1 w1 email1 absent x1 He1 Hf1 Ha).
  rewrite (Login_mismatch E req2 w2 email2 password2 user2 x2 verdict x3
             He2 Hp2 Hf2 Hu2 Hc Hv).
  cbn. repeat split; reflexivity.
Qed.

(** C4: when the email finds a user, the password comparison succeeds and
    the token is issued, [Login] answers 200 with exactly
    [{ user: payload, token }], where [payload] has the two fields [id] and
    [email] of the user found and nothing else; that payload is what was
    handed to [jwt.sign]. *)
Theorem Login_success_response :
  forall (Ext : Type) (E : Env Ext) (req : Req) (w : World Ext)
         (email password user : JsVal) (x1 : Ext) (verdict : JsVal) (x2 : Ext)
         (token : JsVal) (x3 : Ext),
    statusCode (res w) = 200 ->
    prop (body req) "email" = Normal email ->
    prop (body req) "password" = Normal password ->
    User_findOne E (by_email email) (ext w) = (Normal user, x1) ->
    truthy user = true ->
    bcrypt_compare E password (field "passwordDigest" user) x1
      = (Normal verdict, x2) ->
    truthy verdict = true ->
    let payload :=
      JObj [("id", field "id" user); ("email", field "email" user)] in
    jwt_sign E payload (APP_SECRET E) x2 = (Normal token, x3) ->
    exists w',
      Login E req w = (Normal tt, w') /\
      statusCode (res w') = 200 /\
      sent (res w') = Some (JObj [("user", payload); ("token", token)]) /\
      field_names payload = ["id"; "email"] /\
      last (trace w') = Some (CallSign payload (APP_SECRET E)).
Proof.
  intros Ext E req w email password user x1 verdict x2 token x3
    H200 He Hp Hf Hu Hc Hv payload Hs.
  eexists. split.
  - exact (Login_match E req w email password user x1 verdict x2 token x3
             He Hp Hf Hu Hc Hv Hs).
  - cbn. repeat split; try assumption.
    rewrite last_app. reflexivity.
Qed.

(** Reading a field of a missing ([null] or [undefined]) user throws. *)
Lemma prop_missing_throws k :
  (exists e, prop JNull k = Throw e) /\ (exists e, prop JUndefined k = Throw e).
Proof. split; eexists; reflexivity. Qed.

(** C10: when the lookup returns no user, [Login] returns normally with
    the 401 rejection, and the lookup is the only call it made: neither
    [comparePassword] nor any other collaborator was invoked, and no read
    of a field of the missing user threw. *)
Theorem Login_absent_user_short_circuits :
  forall (Ext : Type) (E : Env Ext) (req : Req) (w : World Ext)
         (email absent : JsVal) (x1 : Ext),
    prop (body req) "email" = Normal email ->
    User_findOne E (by_email email) (ext w) = (Normal absent, x1) ->
    truthy absent = false ->
    exists w',
      Login E req w = (Normal tt, w') /\
      trace w' = trace w ++ [CallFindOne (by_email email)] /\
      ext w' = x1 /\
      res w' = rejected (res w).
Proof.
  intros Ext E req w email absent x1 He Hf Ha.
  eexists. split; [exact (Login_no_user E req w email absent x1 He Hf Ha)|].
  cbn. repeat split.
Qed.

(** ** Register *)

(** C5: when hashing succeeds and the storage collaborator creates the
    record, [Register] answers 200 with the record exactly as the
    collaborator returned it, nothing removed, so with its [passwordDigest]
    field; the values it asked the collaborator to store hold the digest
    under that name. *)
Theorem Register_responds_with_created_record :
  forall (Ext : Type) (E : Env Ext) (req : Req) (w : World Ext)
         (email password name digest : JsVal) (x1 : Ext) (user : JsVal)
         (x2 : Ext),
    statusCode (res w) = 200 ->
    prop (body req) "email" = Normal email ->
    prop (body req) "password" = Normal password ->
    prop (body req) "name" = Normal name ->
    bcrypt_hash E password (SALT_ROUNDS E) (ext w) = (Normal digest, x1) ->
    User_create E (user_values email digest name) x1 = (Normal user, x2) ->
    exists w',
      Register E req w = (Normal tt, w') /\
      statusCode (res w') = 200 /\
      sent (res w') = Some user /\
      last (trace w') = Some (CallCreate (user_values email digest name)) /\
      field "passwordDigest" (user_values email digest name) = digest.
Proof.
  intros Ext E req w email password name digest x1 user x2
    H200 He Hp Hn Hh Hc.
  eexists. split.
  - exact (Register_created E req w email password name digest x1 user x2
             He Hp Hn Hh Hc).
  - cbn. repeat split; try assumption.
    rewrite last_app. reflexivity.
Qed.

(** C6: when the storage collaborator's create fails, [Register] throws
    that same error to its caller and leaves the response untouched: no
    status is set and nothing is sent. *)
Theorem Register_rethrows_storage_error :
  forall (Ext : Type) (E : Env Ext) (req : Req) (w : World Ext)
         (email password name digest : JsVal) (x1 : Ext) (e : Exn) (x2 : Ext),
    prop (body req) "email" = Normal email ->
    prop (body req) "password" = Normal password ->
    prop (body req) "name" = Normal name ->
    bcrypt_hash E password (SALT_ROUNDS E) (ext w) = (Normal digest, x1) ->
    User_create E (user_values email digest name) x1 = (Throw e, x2) ->
    exists w',
      Register E req w = (Throw e, w') /\
      res w' = res w /\
      next_calls w' = next_calls w.
Proof.
  intros Ext E req w email password name digest x1 e x2 He Hp Hn Hh Hc.
  eexists. split.
  - exact (Register_refused E req w email password name digest x1 e x2
             He Hp Hn Hh Hc).
  - cbn. auto.
Qed.

(** ** Issuing and verifying tokens, hashing and comparing passwords *)

Section Reference.
Variable kdf : Z -> string -> string -> string.
Variable mac : string -> string -> string.

Lemma verify_sign (c : JsVal) (key : string) (x : Ref.Store) :
  exists t,
    Ref.sign mac c (JStr key) x = (Normal (JStr t), x) /\
    forall x', Ref.verify mac (JStr t) (JStr key) x' = (Normal c, x').
Proof.
  eexists. split; [reflexivity|]. intros x'. unfold Ref.verify.
  rewrite decode_encode, String.eqb_refl. reflexivity.
Qed.

Lemma compare_hash (p : string) (cost : Z) (x : Ref.Store) :
  exists d x1,
    Ref.hash kdf (JStr p) (JNum cost) x = (Normal (JStr d), x1) /\
    forall x', Ref.compare kdf (JStr p) (JStr d) x' = (Normal (JBool true), x').
Proof.
  do 2 eexists. split; [reflexivity|]. intros x'. unfold Ref.compare.
  rewrite decode_encode_alone. cbn. rewrite String.eqb_refl. reflexivity.
Qed.

End Reference.

(** C7: with the reference token library, for every payload [c] and
    secret, [createToken] returns a token string, and [jwt.verify] of that
    token under the same [APP_SECRET], as [verifyToken] calls it, returns
    [c]; [verifyToken], run on a response whose locals hold the token,
    calls [next] and leaves the response alone when [c] is truthy (every
    object is). *)
Theorem createToken_verifyToken_round_trip :
  forall (kdf : Z -> string -> string -> string)
         (mac : string -> string -> string) (rounds : Z) (secret : string)
         (c : JsVal) (w : World Ref.Store),
    let E := Ref.env kdf mac rounds secret in
    exists t,
      createToken E c w =
        (Normal (JStr t),
         mkWorld (ext w) (res w) (trace w ++ [CallSign c (APP_SECRET E)])
                 (next_calls w)) /\
      (forall x, jwt_verify E (JStr t) (APP_SECRET E) x = (Normal c, x)) /\
      (forall req w0,
         let w1 := snd (set_local "token" (JStr t) w0) in
         exists w2,
           verifyToken E req w1 = (Normal tt, w2) /\
           if truthy c
           then next_calls w2 = S (next_calls w1) /\ res w2 = res w1
           else next_calls w2 = next_calls w1 /\ res w2 = rejected (res w1)).
Proof.
  intros kdf mac rounds secret c w E.
  destruct (verify_sign mac c secret (ext w)) as (t & Hsign & Hverify).
  exists t. split; [|split].
  - unfold createToken. unfold_js.
    change (jwt_sign E c (APP_SECRET E) (ext w))
      with (Ref.sign mac c (JStr secret) (ext w)).
    rewrite Hsign. reflexivity.
  - intros x. apply Hverify.
  - intros req w0 w1. rewrite verifyToken_run.
    assert (locals (res w1) !! "token" = Some (JStr t)) as ->
      by apply lookup_insert_eq.
    change (jwt_verify E (default JUndefined (Some (JStr t))) (APP_SECRET E)
              (ext w1))
      with (Ref.verify mac (JStr t) (JStr secret) (ext w1)).
    rewrite Hverify. cbn [fst snd]. eexists. split; [reflexivity|].
    destruct (truthy c); split; reflexivity.
Qed.

(** C8: with the reference hasher, for every plaintext [p],
    [hashPassword] returns a digest string, and [comparePassword] with that
    digest as its first argument and [p] as its second returns [true]. *)
Theorem hashPassword_comparePassword_match :
  forall (kdf : Z -> string -> string -> string)
         (mac : string -> string -> string) (rounds : Z) (secret : string)
         (p : string) (w : World Ref.Store),
    let E := Ref.env kdf mac rounds secret in
    exists d w1,
      hashPassword E (JStr p) w = (Normal (JStr d), w1) /\
      forall w2,
        fst (comparePassword E (JStr d) (JStr p) w2) = Normal (JBool true).
Proof.
  intros kdf mac rounds secret p w E.
  destruct (compare_hash kdf p rounds (ext w)) as (d & x1 & Hhash & Hcompare).
  exists d. eexists. split.
  - unfold hashPassword. unfold_js.
    change (bcrypt_hash E (JStr p) (SALT_ROUNDS E) (ext w))
      with (Ref.hash kdf (JStr p) (JNum rounds) (ext w)).
    rewrite Hhash. reflexivity.
  - intros w2. unfold comparePassword. unfold_js.
    change (bcrypt_compare E (JStr p) (JStr d) (ext w2))
      with (Ref.compare kdf (JStr p) (JStr d) (ext w2)).
    rewrite Hcompare. reflexivity.
Qed.

(** C9: [createToken] hands [jwt.sign] the payload as it received it and
    the secret, and nothing else (no option, so no expiry is asked for),
    whatever the library; with the reference token library the token it
    returns decodes to exactly the payload [c] followed by the signature, so
    it carries no claim that [c] does not have, and [jwt.verify] under the
    same [APP_SECRET] returns [c] in every state of the outside, however
    much later. *)
Theorem createToken_sets_no_expiration :
  (forall (Ext : Type) (E : Env Ext) (c : JsVal) (w : World Ext),
     createToken E c w =
       (fst (jwt_sign E c (APP_SECRET E) (ext w)),
        mkWorld (snd (jwt_sign E c (APP_SECRET E) (ext w))) (res w)
                (trace w ++ [CallSign c (APP_SECRET E)]) (next_calls w)))
  /\
  (forall (kdf : Z -> string -> string -> string)
          (mac : string -> string -> string) (rounds : Z) (secret : string)
          (c : JsVal) (w : World Ref.Store),
     let E := Ref.env kdf mac rounds secret in
     exists t,
       fst (createToken E c w) = Normal (JStr t) /\
       Codec.decode t = Some (c, mac secret (Codec.encode c)) /\
       (forall claims signature,
          Codec.decode t = Some (claims, signature) ->
          field "exp" claims = field "exp" c) /\
       (forall x, jwt_verify E (JStr t) (APP_SECRET E) x = (Normal c, x))).
Proof.
  split.
  - intros Ext E c w. unfold createToken. unfold_js.
    destruct (jwt_sign E c (APP_SECRET E) (ext w)) as [[t|e] x]; reflexivity.
  - intros kdf mac rounds secret c w E.
    exists (Codec.encode c +:+ mac secret (Codec.encode c)).
    split; [reflexivity|]. split; [apply decode_encode|].
    split.
    + intros claims signature. rewrite decode_encode.
      intros [= <- _]. reflexivity.
    + intros x.
      change (jwt_verify E
                (JStr (Codec.encode c +:+ mac secret (Codec.encode c)))
                (APP_SECRET E) x)
        with (Ref.verify mac
                (JStr (Codec.encode c +:+ mac secret (Codec.encode c)))
                (JStr secret) x).
      unfold Ref.verify. rewrite decode_encode, String.eqb_refl. reflexivity.
Qed.

(** ** The claims on the sample data *)

Lemma Login_failures_indistinguishable_witness :
  let r1 := Login Ref.demo (Ref.request (Ref.credentials "jon@mail.com" "1234"))
                  (Ref.start Ref.registered) in
  let r2 := Login Ref.demo (Ref.request (Ref.credentials "john@mail.com" "12345"))
                  (Ref.start Ref.registered) in
  fst r1 = Normal tt /\ fst r2 = Normal tt /\
  statusCode (res (snd r1)) = 401 /\
  sent (res (snd r1)) = Some unauthorized /\
  statusCode (res (snd r2)) = statusCode (res (snd r1)) /\
  sent (res (snd r2)) = sent (res (snd r1)).
Proof.
  eapply (Login_failures_indistinguishable Ref.Store Ref.demo);
    reflexivity.
Defined.

(** C3, as first stated, fails: for an unknown email [Login] answers 401,
    while for the known email sent without a password, which does not match
    the stored digest, the comparison throws, [Login] rethrows and answers
    nothing: the two failures are told apart. *)
Lemma Login_failure_by_throwing_comparison_differs :
  let E := Faulty.strict in
  let w := Ref.start Ref.registered in
  let unknown := Ref.request (Ref.credentials "jon@mail.com" "1234") in
  let no_password := Ref.request (JObj [("email", JStr "john@mail.com")]) in
  let found :=
    match fst (User_findOne E (by_email (JStr "john@mail.com")) (ext w)) with
    | Normal user => user
    | Throw _ => JNull
    end in
  fst (User_findOne E (by_email (JStr "jon@mail.com")) (ext w)) = Normal JNull /\
  truthy found = true /\
  fst (bcrypt_compare E (field "password" (body no_password))
                      (field "passwordDigest" found) (ext w))
    <> Normal (JBool true) /\
  fst (Login E unknown w) = Normal tt /\
  statusCode (res (snd (Login E unknown w))) = 401 /\
  sent (res (snd (Login E unknown w))) = Some unauthorized /\
  fst (Login E no_password w)
    = Throw (Raised "data and hash arguments required") /\
  statusCode (res (snd (Login E no_password w))) = 200 /\
  sent (res (snd (Login E no_password w))) = None /\
  sent (res (snd (Login E no_password w)))
    <> sent (res (snd (Login E unknown w))).
Proof. vm_compute. repeat split; try reflexivity; discriminate. Qed.

Lemma Login_success_response_witness :
  exists (token : string) w',
    Login Ref.demo (Ref.request Ref.john) (Ref.start Ref.registered)
      = (Normal tt, w') /\
    statusCode (res w') = 200 /\
    sent (res w') =
      Some (JObj [("user", JObj [("id", JNum 1);
                                 ("email", JStr "john@mail.com")]);
                  ("token", JStr token)]) /\
    field_names (JObj [("id", JNum 1); ("email", JStr "john@mail.com")])
      = ["id"; "email"] /\
    last (trace w') =
      Some (CallSign (JObj [("id", JNum 1); ("email", JStr "john@mail.com")])
                     (JStr "supersecretkey")).
Proof.
  eexists.
  eapply (Login_success_response Ref.Store Ref.demo (Ref.request Ref.john)
            (Ref.start Ref.registered) (JStr "john@mail.com") (JStr "1234")
            (default JNull (head (Ref.rows Ref.registered))));
    reflexivity.
Defined.

Lemma Login_absent_user_short_circuits_witness :
  exists w',
    Login Ref.demo (Ref.request (Ref.credentials "jon@mail.com" "1234"))
          (Ref.start Ref.registered) = (Normal tt, w') /\
    trace w' = [] ++ [CallFindOne (by_email (JStr "jon@mail.com"))] /\
    ext w' = Ref.registered /\
    res w' = rejected fresh_res.
Proof.
  eapply (Login_absent_user_short_circuits Ref.Store Ref.demo
            (Ref.request (Ref.credentials "jon@mail.com" "1234"))
            (Ref.start Ref.registered));
    reflexivity.
Defined.

Lemma Register_responds_with_created_record_witness :
  exists (digest : string) w',
    Register Ref.demo (Ref.request Ref.john) (Ref.start Ref.empty)
      = (Normal tt, w') /\
    statusCode (res w') = 200 /\
    sent (res w') =
      Some (JObj [("id", JNum 1); ("name", JStr "John Doe");
                  ("email", JStr "john@mail.com");
                  ("passwordDigest", JStr digest)]) /\
    last (trace w') =
      Some (CallCreate
              (user_values (JStr "john@mail.com") (JStr digest)
                           (JStr "John Doe"))) /\
    field "passwordDigest"
      (user_values (JStr "john@mail.com") (JStr digest) (JStr "John Doe"))
    = JStr digest.
Proof.
  eexists.
  eapply (Register_responds_with_created_record Ref.Store Ref.demo
            (Ref.request Ref.john) (Ref.start Ref.empty));
    reflexivity.
Defined.

Lemma Register_rethrows_storage_error_witness :
  exists w',
    Register Ref.demo (Ref.request Ref.john) (Ref.start Ref.registered)
      = (Throw (Raised "SequelizeUniqueConstraintError"), w') /\
    res w' = fresh_res /\
    next_calls w' = 0%nat.
Proof.
  eapply (Register_rethrows_storage_error Ref.Store Ref.demo
            (Ref.request Ref.john) (Ref.start Ref.registered));
    reflexivity.
Defined.

(** ** The walkthrough, end to end *)

Example extract_bearer_abc123 :
  let w := snd (stripToken (mkReq {[ "authorization" := "Bearer abc123" ]} JNull)
                           (Ref.start Ref.empty)) in
  locals (res w) !! "token" = Some (JStr "abc123") /\ next_calls w = 1%nat.
Proof. vm_compute. split; reflexivity. Qed.

Example missing_header_is_rejected :
  stripToken (Ref.request JNull) (Ref.start Ref.empty)
  = (Normal tt, mkWorld Ref.empty (rejected fresh_res) [] 0).
Proof. reflexivity. Qed.

(** Logging in and presenting the token to a protected route: both
    middlewares call [next] and no response is sent by them. *)
Example protected_route_with_login_token :
  let login := snd (Login Ref.demo (Ref.request Ref.john)
                          (Ref.start Ref.registered)) in
  let token :=
    match field "token" (default JNull (sent (res login))) with
    | JStr t => t
    | _ => ""
    end in
  let req := mkReq {[ "authorization" := "Bearer " +:+ token ]} JNull in
  let w := snd (layers (stripToken req) (verifyToken Ref.demo req)
                       (Ref.start Ref.registered)) in
  next_calls w = 2%nat /\ sent (res w) = None /\ statusCode (res w) = 200.
Proof. vm_compute. repeat split; reflexivity. Qed.

Example protected_route_with_tampered_token :
  let req := mkReq {[ "authorization" := "Bearer uXsupersecretkey" ]} JNull in
  let w := snd (layers (stripToken req) (verifyToken Ref.demo req)
                       (Ref.start Ref.registered)) in
  next_calls w = 1%nat /\ sent (res w) = Some unauthorized /\
  statusCode (res w) = 401.
Proof. vm_compute. repeat split; reflexivity. Qed.

(** The order of [comparePassword]'s arguments matters: the stored digest
    comes first. *)
Example comparePassword_argument_order :
  let digest :=
    field "passwordDigest" (default JNull (head (Ref.rows Ref.registered))) in
  let w := Ref.start Ref.registered in
  fst (comparePassword Ref.demo digest (JStr "1234") w) = Normal (JBool true)
  /\ fst (comparePassword Ref.demo (JStr "1234") digest w)
     = Normal (JBool false).
Proof. vm_compute. split; reflexivity. Qed.

(** A header without a token: the route goes no further than [stripToken],
    and nothing is answered. *)
Example protected_route_without_token :
  let req := mkReq {[ "authorization" := "abc123" ]} JNull in
  let w := snd (layers (stripToken req) (verifyToken Ref.demo req)
                       (Ref.start Ref.registered)) in
  next_calls w = 0%nat /\ sent (res w) = None /\ statusCode (res w) = 200.
Proof. vm_compute. repeat split; reflexivity. Qed.

(** * Further properties of the middleware, the handlers and the seeder *)

(** ** Splitting the header *)

Lemma split_cons_free sep a b :
  free_of sep a = true -> split sep (a +:+ String sep b) = a :: split sep b.
Proof.
  unfold free_of. induction a as [|c a IH]; intros Ha.
  - change ("" +:+ String sep b) with (String sep b). cbn [split].
    now rewrite Ascii.eqb_refl.
  - rewrite app_String. cbn [split]. cbn [list_ascii_of_string forallb] in Ha.
    destruct (Ascii.eqb c sep); [discriminate|]. cbn [negb andb] in Ha.
    now rewrite (IH Ha).
Qed.

Lemma split_pieces_free sep s :
  Forall (fun piece => free_of sep piece = true) (split sep s).
Proof.
  induction s as [|c s IH]; cbn [split].
  - repeat constructor.
  - destruct (Ascii.eqb c sep) eqn:Hc.
    + constructor; [reflexivity|exact IH].
    + destruct (split sep s) as [|piece pieces]; [repeat constructor; unfold free_of; cbn; now rewrite Hc|].
      inversion IH as [|? ? Hp Hps]; subst. constructor; [|exact Hps].
      unfold free_of in *. cbn [list_ascii_of_string forallb]. now rewrite Hc.
Qed.

Lemma concat_split sep s : String.concat (String sep "") (split sep s) = s.
Proof.
  induction s as [|c s IH]; [reflexivity|]. cbn [split].
  pose proof (split_nonempty sep s) as Hne.
  destruct (Ascii.eqb c sep) eqn:Hc.
  - apply Ascii.eqb_eq in Hc. subst c.
    destruct (split sep s) as [|piece pieces]; [congruence|].
    cbn [String.concat] in *. rewrite IH. reflexivity.
  - destruct (split sep s) as [|piece pieces]; [congruence|].
    destruct pieces as [|piece' pieces].
    + cbn [String.concat] in *. now rewrite IH.
    + cbn [String.concat] in *. rewrite app_String. now rewrite IH.
Qed.

(** X1: the pieces [split] cuts a header into contain no separator, and
    joined again with the separator they give the header back. *)
Theorem split_join_round_trip :
  forall (sep : ascii) (s : string),
    String.concat (String sep "") (split sep s) = s /\
    Forall (fun piece => free_of sep piece = true) (split sep s) /\
    split sep s <> [].
Proof.
  intros sep s. split; [apply concat_split|].
  split; [apply split_pieces_free|apply split_nonempty].
Qed.

(** ** The extractor, on every request *)

(** X2: on every request [stripToken] returns normally, calls no library
    and leaves the outside alone; it calls [next] at most once, and when it
    does the status and the body of the response are as they were. *)
Theorem stripToken_returns_without_library_calls :
  forall (Ext : Type) (req : Req) (w : World Ext),
    exists w',
      stripToken req w = (Normal tt, w') /\
      ext w' = ext w /\ trace w' = trace w /\
      (next_calls w' = next_calls w \/
       next_calls w' = S (next_calls w) /\
       statusCode (res w') = statusCode (res w) /\
       sent (res w') = sent (res w)).
Proof.
  intros Ext req w. rewrite stripToken_run.
  destruct (headers req !! "authorization") as [h|];
    [destruct (split " " h !! 1%nat) as [t|];
     [destruct (String.eqb t "")|]|];
    eexists; (split; [reflexivity|]); cbn; intuition auto.
Qed.

(** X3: a request without the authorization header is answered 401 with
    [{ status: 'Error', msg: 'Unauthorized' }]; [next] is not called and
    [res.locals] is left as it was. *)
Theorem stripToken_rejects_absent_header :
  forall (Ext : Type) (req : Req) (w : World Ext),
    headers req !! "authorization" = None ->
    exists w',
      stripToken req w = (Normal tt, w') /\
      statusCode (res w') = 401 /\
      sent (res w') = Some unauthorized /\
      locals (res w') = locals (res w) /\
      next_calls w' = next_calls w.
Proof.
  intros Ext req w H. rewrite (stripToken_absent req w H).
  eexists. split; [reflexivity|]. cbn. auto.
Qed.

(** X4: a request that has an authorization header, whatever it holds, is
    never answered by [stripToken]: status and body stay as they were. *)
Theorem stripToken_never_answers_a_header :
  forall (Ext : Type) (req : Req) (w : World Ext) (h : string),
    headers req !! "authorization" = Some h ->
    statusCode (res (snd (stripToken req w))) = statusCode (res w) /\
    sent (res (snd (stripToken req w))) = sent (res w).
Proof.
  intros Ext req w h H. rewrite stripToken_run, H.
  destruct (split " " h !! 1%nat) as [t|]; [|auto].
  destruct (String.eqb t ""); cbn; auto.
Qed.

(** X5: whenever [stripToken] calls [next], the header was present, its
    second piece is a non-empty string without a space, and that piece is
    what [res.locals.token] now holds. *)
Theorem stripToken_forwards_second_piece :
  forall (Ext : Type) (req : Req) (w : World Ext),
    next_calls (snd (stripToken req w)) <> next_calls w ->
    exists h t,
      headers req !! "authorization" = Some h /\
      split " " h !! 1%nat = Some t /\
      t <> "" /\ free_of " " t = true /\
      locals (res (snd (stripToken req w)))
        = <["token" := JStr t]> (locals (res w)).
Proof.
  intros Ext req w. rewrite stripToken_run.
  destruct (headers req !! "authorization") as [h|]; [|cbn; congruence].
  destruct (split " " h !! 1%nat) as [t|] eqn:Ht; [|cbn; congruence].
  destruct (String.eqb t "") eqn:Hempty; [cbn; congruence|].
  intros _. exists h, t.
  split; [reflexivity|]. split; [exact Ht|].
  split; [now apply String.eqb_neq|]. split; [|reflexivity].
  pose proof (split_pieces_free " " h) as Hall.
  rewrite Forall_forall in Hall. apply Hall.
  eapply list_elem_of_lookup_2. exact Ht.
Qed.

(** X6: in a header [<scheme> <token>...] the scheme is not looked at and
    what follows a second space is dropped: for any scheme and token
    without a space, the token non-empty, [stripToken] stores the token and
    calls [next]. *)
Theorem stripToken_takes_second_word :
  forall (Ext : Type) (req : Req) (w : World Ext) (scheme token tail : string),
    headers req !! "authorization" = Some (scheme +:+ " " +:+ token +:+ tail) ->
    free_of " " scheme = true ->
    free_of " " token = true ->
    token <> "" ->
    tail = "" \/ (exists rest, tail = String " " rest) ->
    stripToken req w =
    (Normal tt,
     mkWorld (ext w)
       (mkRes (statusCode (res w)) (sent (res w))
              (<["token" := JStr token]> (locals (res w))))
       (trace w) (S (next_calls w))).
Proof.
  intros Ext req w scheme token tail Hh Hs Ht Hne Htail.
  rewrite stripToken_run, Hh.
  change (scheme +:+ " " +:+ token +:+ tail)
    with (scheme +:+ String " " (token +:+ tail)).
  rewrite (split_cons_free _ _ _ Hs).
  assert (exists pieces, split " " (token +:+ tail) = token :: pieces)
    as [pieces ->].
  { destruct Htail as [->|[rest ->]].
    - rewrite app_empty_r, (split_no_separator _ _ Ht). eauto.
    - rewrite (split_cons_free _ _ _ Ht). eauto. }
  cbn. apply String.eqb_neq in Hne. now rewrite Hne.
Qed.

(** ** Login and Register, on every path *)

Lemma prop_normal v k a k' : prop v k = Normal a -> prop v k' = Normal (field k' v).
Proof. destruct v; cbn; congruence. Qed.

Lemma prop_throws v k e k' : prop v k = Throw e -> exists e', prop v k' = Throw e'.
Proof. destruct v; cbn; intros; try discriminate; eauto. Qed.

Section Paths.
Context {Ext : Type} (E : Env Ext).

(** [Login], path by path. *)
Lemma Login_run (req : Req) (w : World Ext) :
  Login E req w =
  match prop (body req) "email" with
  | Throw e => (Throw e, w)
  | Normal email =>
      let t1 := trace w ++ [CallFindOne (by_email email)] in
      match User_findOne E (by_email email) (ext w) with
      | (Throw e, x1) => (Throw e, mkWorld x1 (res w) t1 (next_calls w))
      | (Normal user, x1) =>
          if truthy user then
            let digest := field "passwordDigest" user in
            let password := field "password" (body req) in
            let t2 := t1 ++ [CallCompare password digest] in
            match bcrypt_compare E password digest x1 with
            | (Throw e, x2) => (Throw e, mkWorld x2 (res w) t2 (next_calls w))
            | (Normal verdict, x2) =>
                if truthy verdict then
                  let payload :=
                    JObj [("id", field "id" user);
                          ("email", field "email" user)] in
                  let t3 := t2 ++ [CallSign payload (APP_SECRET E)] in
                  match jwt_sign E payload (APP_SECRET E) x2 with
                  | (Throw e, x3) =>
                      (Throw e, mkWorld x3 (res w) t3 (next_calls w))
                  | (Normal token, x3) =>
                      (Normal tt,
                       mkWorld x3
                         (mkRes (statusCode (res w))
                            (Some (JObj [("user", payload); ("token", token)]))
                            (locals (res w)))
                         t3 (next_calls w))
                  end
                else
                  (Normal tt,
                   mkWorld x2 (rejected (res w)) t2 (next_calls w))
            end
          else (Normal tt, mkWorld x1 (rejected (res w)) t1 (next_calls w))
      end
  end.
Proof.
  unfold Login, comparePassword, createToken, by_email. unfold_js.
  destruct (prop (body req) "email") as [email|e] eqn:He; [|reflexivity].
  cbn. destruct (User_findOne E _ (ext w)) as [[user|e] x1]; [|reflexivity].
  cbn. destruct (truthy user) eqn:Hu.
  - rewrite !(prop_truthy user _ Hu), (prop_normal _ _ _ "password" He). cbn.
    destruct (bcrypt_compare E _ _ x1) as [[verdict|e] x2]; [|reflexivity].
    cbn. destruct (truthy verdict); [|reflexivity].
    cbn. destruct (jwt_sign E _ (APP_SECRET E) x2) as [[token|e] x3];
      reflexivity.
  - cbn. rewrite Hu. reflexivity.
Qed.

(** [Register], path by path. *)
Lemma Register_run (req : Req) (w : World Ext) :
  Register E req w =
  match prop (body req) "email" with
  | Throw e => (Throw e, w)
  | Normal email =>
      let password := field "password" (body req) in
      let name := field "name" (body req) in
      let t1 := trace w ++ [CallHash password (SALT_ROUNDS E)] in
      match bcrypt_hash E password (SALT_ROUNDS E) (ext w) with
      | (Throw e, x1) => (Throw e, mkWorld x1 (res w) t1 (next_calls w))
      | (Normal digest, x1) =>
          let values := user_values email digest name in
          let t2 := t1 ++ [CallCreate values] in
          match User_create E values x1 with
          | (Throw e, x2) => (Throw e, mkWorld x2 (res w) t2 (next_calls w))
          | (Normal user, x2) =>
              (Normal tt,
               mkWorld x2
                 (mkRes (statusCode (res w)) (Some user) (locals (res w)))
                 t2 (next_calls w))
          end
      end
  end.
Proof.
  unfold Register, hashPassword, user_values. unfold_js.
  destruct (prop (body req) "email") as [email|e] eqn:He; [|reflexivity].
  rewrite (prop_normal _ _ _ "password" He), (prop_normal _ _ _ "name" He).
  cbn. destruct (bcrypt_hash E _ (SALT_ROUNDS E) (ext w)) as [[digest|e] x1];
    [|reflexivity].
  cbn. destruct (User_create E _ x1) as [[user|e] x2]; reflexivity.
Qed.

End Paths.

(** X7: whenever [Login] throws, whatever the cause, the response is as it
    was (no status set, nothing sent) and [next] was not called. *)
Theorem Login_throw_keeps_response :
  forall (Ext : Type) (E : Env Ext) (req : Req) (w w' : World Ext) (e : Exn),
    Login E req w = (Throw e, w') ->
    res w' = res w /\ next_calls w' = next_calls w.
Proof.
  intros Ext E req w w' e. rewrite Login_run. cbv zeta.
  repeat case_match; intros [= <- <-]; cbn; auto.
Qed.

(** X8: whenever [Login] returns normally, it answered either with the 401
    rejection or with [{ user, token }] at an unchanged status, and in the
    second case the lookup returned a truthy user, [bcrypt.compare] of the
    request's password with that user's [passwordDigest] returned a truthy
    value, and the token is what [jwt.sign] returned for [{ id, email }] of
    that user. *)
Theorem Login_answers_after_truthy_comparison :
  forall (Ext : Type) (E : Env Ext) (req : Req) (w w' : World Ext),
    Login E req w = (Normal tt, w') ->
    res w' = rejected (res w) \/
    exists email user x1 verdict x2 token,
      prop (body req) "email" = Normal email /\
      User_findOne E (by_email email) (ext w) = (Normal user, x1) /\
      truthy user = true /\
      bcrypt_compare E (field "password" (body req))
                     (field "passwordDigest" user) x1 = (Normal verdict, x2) /\
      truthy verdict = true /\
      jwt_sign E (JObj [("id", field "id" user); ("email", field "email" user)])
               (APP_SECRET E) x2 = (Normal token, ext w') /\
      statusCode (res w') = statusCode (res w) /\
      sent (res w') =
        Some (JObj [("user", JObj [("id", field "id" user);
                                   ("email", field "email" user)]);
                    ("token", token)]).
Proof.
  intros Ext E req w w'. rewrite Login_run. cbv zeta.
  destruct (prop (body req) "email") as [email|e]; [|discriminate].
  destruct (User_findOne E _ (ext w)) as [[user|e] x1] eqn:Hf; [|discriminate].
  destruct (truthy user) eqn:Hu; [|intros [= <-]; now left].
  destruct (bcrypt_compare E _ _ x1) as [[verdict|e] x2] eqn:Hc; [|discriminate].
  destruct (truthy verdict) eqn:Hv; [|intros [= <-]; now left].
  destruct (jwt_sign E _ (APP_SECRET E) x2) as [[token|e] x3] eqn:Hs;
    [|discriminate].
  intros [= <-]. right. exists email, user, x1, verdict, x2, token.
  cbn. repeat split; assumption.
Qed.

(** X9: on every path [Login] calls [next] never, leaves [res.locals]
    alone, and the calls it makes are an initial part of: the lookup by the
    request's email, the comparison of the request's password with the
    [passwordDigest] of the user that lookup returned, the signing of
    [{ id, email }] of that same user under [APP_SECRET].  The comparison
    is made only when the lookup returned a truthy user, and the signing
    only when the comparison returned a truthy value.  It never hashes and
    never creates a record. *)
Theorem Login_call_discipline :
  forall (Ext : Type) (E : Env Ext) (req : Req) (w : World Ext),
    let w' := snd (Login E req w) in
    let email := field "email" (body req) in
    let password := field "password" (body req) in
    let lookup := User_findOne E (by_email email) (ext w) in
    let user :=
      match fst lookup with
      | Normal found => found
      | Throw _ => JUndefined
      end in
    let digest := field "passwordDigest" user in
    let comparison := bcrypt_compare E password digest (snd lookup) in
    let payload :=
      JObj [("id", field "id" user); ("email", field "email" user)] in
    next_calls w' = next_calls w /\
    locals (res w') = locals (res w) /\
    exists calls,
      trace w' = trace w ++ calls /\
      calls `prefix_of`
        [CallFindOne (by_email email);
         CallCompare password digest;
         CallSign payload (APP_SECRET E)] /\
      ((2 <= length calls)%nat ->
         exists found, fst lookup = Normal found /\ truthy found = true) /\
      (length calls = 3%nat ->
         exists verdict,
           fst comparison = Normal verdict /\ truthy verdict = true).
Proof.
  intros Ext E req w. cbv zeta. rewrite Login_run. cbv zeta.
  destruct (prop (body req) "email") as [email|e] eqn:He.
  2:{ cbn. repeat split. exists []. rewrite app_nil_r.
      split; [reflexivity|]. split; [apply prefix_nil|].
      split; cbn; intros; [lia|discriminate]. }
  pose proof (prop_normal _ _ _ "email" He) as He'. rewrite He in He'.
  injection He' as ->.
  destruct (User_findOne E _ (ext w)) as [[user|e] x1]; cbn [fst snd].
  2:{ cbn. repeat split. eexists. split; [reflexivity|].
      split; [now eexists|]. split; cbn; intros; [lia|discriminate]. }
  destruct (truthy user) eqn:Hu.
  2:{ cbn. repeat split. eexists. split; [reflexivity|].
      split; [now eexists|]. split; cbn; intros; [lia|discriminate]. }
  destruct (bcrypt_compare E _ _ x1) as [[verdict|e] x2]; cbn [fst snd].
  2:{ cbn. repeat split. eexists. rewrite <- app_assoc.
      split; [reflexivity|]. split; [now eexists|].
      split; cbn; intros; [eauto|discriminate]. }
  destruct (truthy verdict) eqn:Hv.
  2:{ cbn. repeat split. eexists. rewrite <- app_assoc.
      split; [reflexivity|]. split; [now eexists|].
      split; cbn; intros; [eauto|discriminate]. }
  destruct (jwt_sign E _ (APP_SECRET E) x2) as [[token|e] x3];
    cbn; repeat split; eexists; rewrite <- !app_assoc;
    (split; [reflexivity|]); (split; [reflexivity|]);
    split; cbn; intros; eauto.
Qed.

(** X10: when the lookup throws, [Login] throws the same error; nothing
    is compared or signed and nothing is answered. *)
Theorem Login_rethrows_lookup_error :
  forall (Ext : Type) (E : Env Ext) (req : Req) (w : World Ext)
         (email : JsVal) (e : Exn) (x1 : Ext),
    prop (body req) "email" = Normal email ->
    User_findOne E (by_email email) (ext w) = (Throw e, x1) ->
    Login E req w =
    (Throw e,
     mkWorld x1 (res w) (trace w ++ [CallFindOne (by_email email)])
             (next_calls w)).
Proof.
  intros Ext E req w email e x1 He Hf.
  rewrite Login_run, He. cbv zeta. rewrite Hf. reflexivity.
Qed.

(** X11: when the user is found and [bcrypt.compare] throws instead of
    returning, [Login] throws that error: the failure is not turned into the
    401 rejection, nothing is answered and no token is signed. *)
Theorem Login_rethrows_compare_error :
  forall (Ext : Type) (E : Env Ext) (req : Req) (w : World Ext)
         (email user : JsVal) (x1 : Ext) (e : Exn) (x2 : Ext),
    prop (body req) "email" = Normal email ->
    User_findOne E (by_email email) (ext w) = (Normal user, x1) ->
    truthy user = true ->
    bcrypt_compare E (field "password" (body req))
                   (field "passwordDigest" user) x1 = (Throw e, x2) ->
    Login E req w =
    (Throw e,
     mkWorld x2 (res w)
       (trace w ++ [CallFindOne (by_email email);
                    CallCompare (field "password" (body req))
                                (field "passwordDigest" user)])
       (next_calls w)).
Proof.
  intros Ext E req w email user x1 e x2 He Hf Hu Hc.
  rewrite Login_run, He. cbv zeta. rewrite Hf, Hu, Hc.
  rewrite <- app_assoc. reflexivity.
Qed.

(** X12: when the credentials match and [jwt.sign] throws, [Login] throws
    that error and answers nothing. *)
Theorem Login_rethrows_sign_error :
  forall (Ext : Type) (E : Env Ext) (req : Req) (w : World Ext)
         (email user : JsVal) (x1 : Ext) (verdict : JsVal) (x2 : Ext)
         (e : Exn) (x3 : Ext),
    prop (body req) "email" = Normal email ->
    User_findOne E (by_email email) (ext w) = (Normal user, x1) ->
    truthy user = true ->
    bcrypt_compare E (field "password" (body req))
                   (field "passwordDigest" user) x1 = (Normal verdict, x2) ->
    truthy verdict = true ->
    jwt_sign E (JObj [("id", field "id" user); ("email", field "email" user)])
             (APP_SECRET E) x2 = (Throw e, x3) ->
    exists w',
      Login E req w = (Throw e, w') /\
      res w' = res w /\
      ext w' = x3 /\
      last (trace w') =
        Some (CallSign (JObj [("id", field "id" user);
                              ("email", field "email" user)])
                       (APP_SECRET E)).
Proof.
  intros Ext E req w email user x1 verdict x2 e x3 He Hf Hu Hc Hv Hs.
  rewrite Login_run, He. cbv zeta. rewrite Hf, Hu, Hc, Hv, Hs.
  eexists. split; [reflexivity|]. cbn. repeat split.
  rewrite last_app. reflexivity.
Qed.

(** X13: with a request whose body is [undefined] or [null], [Login]
    throws a [TypeError] before any collaborator is called: the world is
    left as it was. *)
Theorem Login_missing_body :
  forall (Ext : Type) (E : Env Ext) (req : Req) (w : World Ext),
    body req = JUndefined \/ body req = JNull ->
    exists msg, Login E req w = (Throw (TypeError msg), w).
Proof.
  intros Ext E req w [H|H]; rewrite Login_run, H; eexists; reflexivity.
Qed.

(** X14: [Login] reads nothing of the request but [body.email] and
    [body.password]: two requests that agree on these two reads, whatever
    their headers and other fields, are handled the same. *)
Theorem Login_reads_email_and_password_only :
  forall (Ext : Type) (E : Env Ext) (req1 req2 : Req) (w : World Ext),
    prop (body req1) "email" = prop (body req2) "email" ->
    prop (body req1) "password" = prop (body req2) "password" ->
    Login E req1 w = Login E req2 w.
Proof.
  intros Ext E req1 req2 w He Hp. rewrite !Login_run, <- He.
  destruct (prop (body req1) "email") as [email|e] eqn:H1; [|reflexivity].
  symmetry in He.
  rewrite (prop_normal _ _ _ "password" H1),
          (prop_normal _ _ _ "password" He) in Hp.
  injection Hp as ->. reflexivity.
Qed.

(** ** Register, on every path *)

(** X15: whenever [Register] throws, whatever the cause, the response is
    as it was and [next] was not called. *)
Theorem Register_throw_keeps_response :
  forall (Ext : Type) (E : Env Ext) (req : Req) (w w' : World Ext) (e : Exn),
    Register E req w = (Throw e, w') ->
    res w' = res w /\ next_calls w' = next_calls w.
Proof.
  intros Ext E req w w' e. rewrite Register_run. cbv zeta.
  repeat case_match; intros [= <- <-]; cbn; auto.
Qed.

(** X16: whenever [Register] returns normally, [bcrypt.hash] of the
    request's password returned a digest, [User.create] was given the
    request's email and name with that digest and returned a record, and
    that record is the body sent, at an unchanged status. *)
Theorem Register_answers_after_creation :
  forall (Ext : Type) (E : Env Ext) (req : Req) (w w' : World Ext),
    Register E req w = (Normal tt, w') ->
    exists digest x1 user,
      bcrypt_hash E (field "password" (body req)) (SALT_ROUNDS E) (ext w)
        = (Normal digest, x1) /\
      User_create E
        (user_values (field "email" (body req)) digest
                     (field "name" (body req))) x1
        = (Normal user, ext w') /\
      sent (res w') = Some user /\
      statusCode (res w') = statusCode (res w).
Proof.
  intros Ext E req w w'. rewrite Register_run. cbv zeta.
  destruct (prop (body req) "email") as [email|e] eqn:He; [|discriminate].
  pose proof (prop_normal _ _ _ "email" He) as He'. rewrite He in He'.
  injection He' as ->.
  destruct (bcrypt_hash E _ (SALT_ROUNDS E) (ext w)) as [[digest|e] x1];
    [|discriminate].
  destruct (User_create E _ x1) as [[user|e] x2] eqn:Hc; [|discriminate].
  intros [= <-]. exists digest, x1, user. cbn. auto.
Qed.

(** X17: on every path [Register] calls [next] never, leaves
    [res.locals] alone, and the calls it makes are an initial part of: the
    hashing of the request's password with [SALT_ROUNDS], then the creation
    of a record from the three fields [email] (the request's),
    [passwordDigest] (what that hashing returned) and [name] (the
    request's).  The creation is asked for only when the hashing returned;
    no lookup, comparison or signing is made. *)
Theorem Register_call_discipline :
  forall (Ext : Type) (E : Env Ext) (req : Req) (w : World Ext),
    let w' := snd (Register E req w) in
    let password := field "password" (body req) in
    let hashing := bcrypt_hash E password (SALT_ROUNDS E) (ext w) in
    let digest :=
      match fst hashing with
      | Normal hashed => hashed
      | Throw _ => JUndefined
      end in
    next_calls w' = next_calls w /\
    locals (res w') = locals (res w) /\
    exists calls,
      trace w' = trace w ++ calls /\
      calls `prefix_of`
        [CallHash password (SALT_ROUNDS E);
         CallCreate (JObj [("email", field "email" (body req));
                           ("passwordDigest", digest);
                           ("name", field "name" (body req))])] /\
      (length calls = 2%nat -> exists hashed, fst hashing = Normal hashed).
Proof.
  intros Ext E req w. cbv zeta. rewrite Register_run. cbv zeta.
  destruct (prop (body req) "email") as [email|e] eqn:He.
  2:{ cbn. repeat split. exists []. rewrite app_nil_r.
      split; [reflexivity|]. split; [apply prefix_nil|].
      cbn; intros; discriminate. }
  pose proof (prop_normal _ _ _ "email" He) as He'. rewrite He in He'.
  injection He' as ->.
  destruct (bcrypt_hash E _ (SALT_ROUNDS E) (ext w)) as [[digest|e] x1];
    cbn [fst snd].
  2:{ cbn. repeat split. eexists. split; [reflexivity|].
      split; [now eexists|]. cbn; intros; discriminate. }
  unfold user_values.
  destruct (User_create E _ x1) as [[user|e] x2];
    cbn; repeat split; eexists; rewrite <- app_assoc;
    (split; [reflexivity|]); (split; [reflexivity|]);
    cbn; intros; eauto.
Qed.

(** X18: when [bcrypt.hash] throws, [Register] throws the same error;
    [User.create] is not called and nothing is answered. *)
Theorem Register_rethrows_hash_error :
  forall (Ext : Type) (E : Env Ext) (req : Req) (w : World Ext)
         (email : JsVal) (e : Exn) (x1 : Ext),
    prop (body req) "email" = Normal email ->
    bcrypt_hash E (field "password" (body req)) (SALT_ROUNDS E) (ext w)
      = (Throw e, x1) ->
    Register E req w =
    (Throw e,
     mkWorld x1 (res w)
       (trace w ++ [CallHash (field "password" (body req)) (SALT_ROUNDS E)])
       (next_calls w)).
Proof.
  intros Ext E req w email e x1 He Hh.
  rewrite Register_run, He. cbv zeta. rewrite Hh. reflexivity.
Qed.

(** X19: with a request whose body is [undefined] or [null], [Register]
    throws a [TypeError] before any collaborator is called: nothing is
    hashed or stored. *)
Theorem Register_missing_body :
  forall (Ext : Type) (E : Env Ext) (req : Req) (w : World Ext),
    body req = JUndefined \/ body req = JNull ->
    exists msg, Register E req w = (Throw (TypeError msg), w).
Proof.
  intros Ext E req w [H|H]; rewrite Register_run, H; eexists; reflexivity.
Qed.

(** ** Protected routes *)

Ltac blocked :=
  right; eexists; split;
  [ intros ?; cbn [next_calls]; rewrite ?Nat.ltb_irrefl; reflexivity
  | cbn [next_calls]; lia ].

(** X20: on a protected route either the header's second piece is a
    non-empty token for which [jwt.verify] under [APP_SECRET] returns a
    truthy payload, and then the route is the handler run with the token in
    [res.locals] after two [next] calls; or the handler is not run at all:
    the route returns normally with an outcome that is the same for every
    handler, after at most one [next] call. *)
Theorem protected_route_runs_handler_behind_verified_token :
  forall (Ext : Type) (E : Env Ext) (handler : Req -> M Ext unit)
         (req : Req) (w : World Ext),
    (exists h t payload x,
       headers req !! "authorization" = Some h /\
       split " " h !! 1%nat = Some t /\ t <> "" /\
       jwt_verify E (JStr t) (APP_SECRET E) (ext w) = (Normal payload, x) /\
       truthy payload = true /\
       protected E handler req w =
       handler req
         (mkWorld x
            (mkRes (statusCode (res w)) (sent (res w))
                   (<["token" := JStr t]> (locals (res w))))
            (trace w ++ [CallVerify (JStr t) (APP_SECRET E)])
            (S (S (next_calls w)))))
    \/
    (exists w',
       (forall handler', protected E handler' req w = (Normal tt, w')) /\
       (next_calls w' <= S (next_calls w))%nat).
Proof.
  intros Ext E handler req w. unfold protected, layers.
  rewrite stripToken_run.
  destruct (headers req !! "authorization") as [h|].
  2:{ blocked. }
  destruct (split " " h !! 1%nat) as [t|] eqn:Ht.
  2:{ blocked. }
  destruct (String.eqb t "") eqn:Hempty.
  { blocked. }
  cbn [next_calls].
  assert (Nat.ltb (next_calls w) (S (next_calls w)) = true) as ->
    by (apply Nat.ltb_lt; lia).
  rewrite verifyToken_run. cbn [res locals ext trace next_calls fst snd].
  rewrite lookup_insert_eq.
  change (default JUndefined (Some (JStr t))) with (JStr t).
  destruct (jwt_verify E (JStr t) (APP_SECRET E) (ext w))
    as [[payload|e] x] eqn:Hv; cbn [fst snd].
  - destruct (truthy payload) eqn:Hp; cbn [next_calls].
    + left. exists h, t, payload, x.
      assert (Nat.ltb (S (next_calls w)) (S (S (next_calls w))) = true) as ->
        by (apply Nat.ltb_lt; lia).
      split; [reflexivity|]. split; [exact Ht|].
      split; [now apply String.eqb_neq|]. repeat split; assumption.
    + blocked.
  - blocked.
Qed.

(** ** The seeder *)

Section Seeding.
Context {Ext : Type} (E : Seeder.Env Ext).

Lemma ask_run (op : Seeder.Op) (f : Lib Ext) (st : Seeder.State Ext) :
  Seeder.ask op f st =
  (fst (f (Seeder.outside st)),
   Seeder.mkState (snd (f (Seeder.outside st))) (Seeder.log st ++ [op])).
Proof. unfold Seeder.ask. now destruct (f (Seeder.outside st)). Qed.

(** One post: five generator calls in the order of the object literal;
    the post is built when all five return. *)
Lemma post_run (v : JsVal) (st : Seeder.State Ext) :
  exists ops,
    Seeder.log (snd (Seeder.post E v st)) = Seeder.log st ++ ops /\
    match fst (Seeder.post E v st) with
    | Normal p => ops = Seeder.post_ops /\ field_names p = Seeder.post_fields
    | Throw _ => ops `prefix_of` Seeder.post_ops /\ ops <> []
    end.
Proof.
  unfold Seeder.post, Seeder.then_, Seeder.unit_. rewrite !ask_run.
  repeat (match goal with
          | |- context [match fst ?c with _ => _ end] =>
              destruct (fst c); cbn [fst snd Seeder.log Seeder.outside];
              rewrite ?ask_run
          end);
    rewrite <- ?app_assoc; cbn [app];
    eexists; (split; [reflexivity|]); unfold Seeder.post_ops;
    try (split; reflexivity);
    (split; [now eexists|discriminate]).
Qed.

Lemma posts_ops_S n :
  Seeder.posts_ops (S n) = Seeder.post_ops ++ Seeder.posts_ops n.
Proof. reflexivity. Qed.

(** The [map] over [l]: the posts are built when every callback
    returns. *)
Lemma map_post_run (l : list JsVal) (st : Seeder.State Ext) :
  exists ops,
    Seeder.log (snd (Seeder.map_array (Seeder.post E) l st))
      = Seeder.log st ++ ops /\
    match fst (Seeder.map_array (Seeder.post E) l st) with
    | Normal ps =>
        ops = Seeder.posts_ops (length l) /\ length ps = length l /\
        Forall (fun p => field_names p = Seeder.post_fields) ps
    | Throw _ =>
        ops `prefix_of` Seeder.posts_ops (length l) /\ ops <> []
    end.
Proof.
  revert st. induction l as [|v l IH]; intros st.
  - exists []. cbn. rewrite app_nil_r. auto.
  - cbn [Seeder.map_array length]. unfold Seeder.then_.
    destruct (post_run v st) as (ops1 & Hlog1 & H1).
    destruct (Seeder.post E v st) as [[p|e] st1]; cbn [fst snd] in *.
    + destruct H1 as [-> Hp].
      destruct (IH st1) as (ops2 & Hlog2 & H2).
      destruct (Seeder.map_array (Seeder.post E) l st1) as [[ps|e] st2];
        unfold Seeder.unit_; cbn [fst snd] in *;
        exists (Seeder.post_ops ++ ops2);
        (split; [rewrite Hlog2, Hlog1, app_assoc; reflexivity|]);
        rewrite posts_ops_S.
      * destruct H2 as (-> & Hlen & Hall). cbn [length].
        split; [reflexivity|]. split; [cbn [length]; congruence|].
        now constructor.
      * destruct H2 as [Hpre Hne]. split.
        -- now apply prefix_app.
        -- intros Hnil. apply app_eq_nil in Hnil as [Hnil _]. discriminate.
    + destruct H1 as [Hpre Hne]. exists ops1. split; [exact Hlog1|].
      split; [|exact Hne]. rewrite posts_ops_S. now apply prefix_app_r.
Qed.

End Seeding.

(** X21: [up] either stops at a generator that throws, having called only
    generators (no insert, no delete), or calls the five generators for
    each of five posts, in the order title, body, image, createdAt,
    updatedAt, and then [bulkInsert] once, on ['posts'], with five rows of
    those five fields; its completion is then that of [bulkInsert]. *)
Theorem up_inserts_five_posts_or_nothing :
  forall (Ext : Type) (E : Seeder.Env Ext) (st : Seeder.State Ext),
    exists ops,
      Seeder.log (snd (Seeder.up E st)) = Seeder.log st ++ ops /\
      ((exists e,
          fst (Seeder.up E st) = Throw e /\
          ops `prefix_of` Seeder.posts_ops 5 /\ ops <> [])
       \/
       (exists posts x,
          ops = Seeder.posts_ops 5 ++ [Seeder.BulkInsert "posts" posts] /\
          length posts = 5%nat /\
          Forall (fun p => field_names p = Seeder.post_fields) posts /\
          fst (Seeder.up E st) =
            match fst (Seeder.bulkInsert E "posts" posts x) with
            | Normal _ => Normal tt
            | Throw e => Throw e
            end /\
          Seeder.outside (snd (Seeder.up E st))
            = snd (Seeder.bulkInsert E "posts" posts x))).
Proof.
  intros Ext E st. unfold Seeder.up, Seeder.then_.
  destruct (map_post_run E (replicate 5 JUndefined) st) as (ops & Hlog & H).
  destruct (Seeder.map_array (Seeder.post E) (replicate 5 JUndefined) st)
    as [[posts|e] st1]; cbn [fst snd] in *.
  - destruct H as (-> & Hlen & Hall).
    unfold Seeder.unit_. rewrite ask_run.
    exists (Seeder.posts_ops 5 ++ [Seeder.BulkInsert "posts" posts]).
    destruct (Seeder.bulkInsert E "posts" posts (Seeder.outside st1))
      as [[v|e] x] eqn:Hb; cbn [fst snd Seeder.log Seeder.outside];
      (split; [rewrite Hlog, app_assoc; reflexivity|]);
      right; exists posts, (Seeder.outside st1); rewrite Hb;
      repeat split; assumption.
  - destruct H as [Hpre Hne]. exists ops. split; [exact Hlog|].
    left. exists e. auto.
Qed.

(** X22: when no generator throws, [up] reaches [bulkInsert] with exactly
    five posts, each with the fields title, body, image, createdAt and
    updatedAt, and returns normally when [bulkInsert] does. *)
Theorem up_seeds_five_posts :
  forall (Ext : Type) (E : Seeder.Env Ext) (st : Seeder.State Ext),
    (forall x, exists v, fst (Seeder.faker_lorem_sentence E x) = Normal v) ->
    (forall x, exists v, fst (Seeder.faker_lorem_paragraph E x) = Normal v) ->
    (forall x, exists v, fst (Seeder.faker_image_food E x) = Normal v) ->
    (forall x, exists v, fst (Seeder.faker_date_past E x) = Normal v) ->
    (forall x, exists v, fst (Seeder.faker_date_recent E x) = Normal v) ->
    (forall rows x, exists v, fst (Seeder.bulkInsert E "posts" rows x) = Normal v) ->
    exists posts,
      fst (Seeder.up E st) = Normal tt /\
      last (Seeder.log (snd (Seeder.up E st)))
        = Some (Seeder.BulkInsert "posts" posts) /\
      length posts = 5%nat /\
      Forall (fun p => field_names p = Seeder.post_fields) posts.
Proof.
  intros Ext E st Hs Hp Hf Hpast Hr Hins.
  assert (forall v st0, exists p,
            fst (Seeder.post E v st0) = Normal p) as Hpost.
  { intros v st0. unfold Seeder.post, Seeder.then_, Seeder.unit_.
    rewrite ask_run. destruct (Hs (Seeder.outside st0)) as [v1 ->].
    rewrite ask_run. cbn [Seeder.outside].
    match goal with |- context [Seeder.faker_lorem_paragraph E ?x] =>
      destruct (Hp x) as [v2 ->] end.
    rewrite ask_run. cbn [Seeder.outside].
    match goal with |- context [Seeder.faker_image_food E ?x] =>
      destruct (Hf x) as [v3 ->] end.
    rewrite ask_run. cbn [Seeder.outside].
    match goal with |- context [Seeder.faker_date_past E ?x] =>
      destruct (Hpast x) as [v4 ->] end.
    rewrite ask_run. cbn [Seeder.outside].
    match goal with |- context [Seeder.faker_date_recent E ?x] =>
      destruct (Hr x) as [v5 ->] end.
    eexists. reflexivity. }
  assert (forall l st0, exists ps,
            fst (Seeder.map_array (Seeder.post E) l st0) = Normal ps) as Hmap.
  { induction l as [|v l IH]; intros st0; [eexists; reflexivity|].
    cbn [Seeder.map_array]. unfold Seeder.then_.
    destruct (Hpost v st0) as [p Hv].
    destruct (Seeder.post E v st0) as [r st1]. cbn [fst] in Hv. subst r.
    destruct (IH st1) as [ps Hps].
    destruct (Seeder.map_array (Seeder.post E) l st1) as [r st2].
    cbn [fst] in Hps. subst r. eexists. reflexivity. }
  unfold Seeder.up, Seeder.then_.
  destruct (map_post_run E (replicate 5 JUndefined) st) as (ops & Hlog & H).
  destruct (Hmap (replicate 5 JUndefined) st) as [ps Hps].
  destruct (Seeder.map_array (Seeder.post E) (replicate 5 JUndefined) st)
    as [r st1]. cbn [fst snd] in *. subst r.
  destruct H as (_ & Hlen & Hall).
  unfold Seeder.unit_. rewrite ask_run.
  destruct (Hins ps (Seeder.outside st1)) as [v ->].
  cbn [fst snd Seeder.log]. exists ps.
  rewrite last_app. auto.
Qed.

(** ** The further properties on sample requests *)

Lemma stripToken_rejects_absent_header_witness :
  exists w',
    stripToken (Ref.request JNull) (Ref.start Ref.empty) = (Normal tt, w') /\
    statusCode (res w') = 401 /\
    sent (res w') = Some unauthorized /\
    locals (res w') = locals (res (Ref.start Ref.empty)) /\
    next_calls w' = next_calls (Ref.start Ref.empty).
Proof.
  apply (stripToken_rejects_absent_header Ref.Store (Ref.request JNull)
           (Ref.start Ref.empty)).
  reflexivity.
Defined.

Lemma stripToken_never_answers_a_header_witness :
  let req := mkReq {[ "authorization" := "Bearer" ]} JNull in
  statusCode (res (snd (stripToken req (Ref.start Ref.empty)))) = 200 /\
  sent (res (snd (stripToken req (Ref.start Ref.empty)))) = None.
Proof.
  apply (stripToken_never_answers_a_header Ref.Store
           (mkReq {[ "authorization" := "Bearer" ]} JNull)
           (Ref.start Ref.empty) "Bearer").
  reflexivity.
Defined.

Lemma stripToken_forwards_second_piece_witness :
  let req := mkReq {[ "authorization" := "Bearer abc123" ]} JNull in
  exists h t,
    headers req !! "authorization" = Some h /\
    split " " h !! 1%nat = Some t /\
    t <> "" /\ free_of " " t = true /\
    locals (res (snd (stripToken req (Ref.start Ref.empty))))
      = <["token" := JStr t]> (locals (res (Ref.start Ref.empty))).
Proof.
  apply (stripToken_forwards_second_piece Ref.Store
           (mkReq {[ "authorization" := "Bearer abc123" ]} JNull)
           (Ref.start Ref.empty)).
  vm_compute. lia.
Defined.

Lemma stripToken_takes_second_word_witness :
  stripToken (mkReq {[ "authorization" := "Basic abc def" ]} JNull)
             (Ref.start Ref.empty)
  = (Normal tt,
     mkWorld Ref.empty
       (mkRes 200 None (<["token" := JStr "abc"]> ∅)) [] 1).
Proof.
  apply (stripToken_takes_second_word Ref.Store
           (mkReq {[ "authorization" := "Basic abc def" ]} JNull)
           (Ref.start Ref.empty) "Basic" "abc" " def").
  - reflexivity.
  - reflexivity.
  - reflexivity.
  - discriminate.
  - right. eexists. reflexivity.
Defined.

Lemma Login_throw_keeps_response_witness :
  let w' := snd (Login (Faulty.db_down (Raised "ECONNREFUSED"))
                       (Ref.request Ref.john) (Ref.start Ref.registered)) in
  res w' = fresh_res /\ next_calls w' = 0%nat.
Proof.
  apply (Login_throw_keeps_response Ref.Store
           (Faulty.db_down (Raised "ECONNREFUSED"))
           (Ref.request Ref.john) (Ref.start Ref.registered) _
           (Raised "ECONNREFUSED")).
  reflexivity.
Defined.

Lemma Login_answers_after_truthy_comparison_witness :
  let E := Ref.demo in
  let req := Ref.request Ref.john in
  let w := Ref.start Ref.registered in
  let w' := snd (Login E req w) in
  res w' = rejected (res w) \/
  exists email user x1 verdict x2 token,
    prop (body req) "email" = Normal email /\
    User_findOne E (by_email email) (ext w) = (Normal user, x1) /\
    truthy user = true /\
    bcrypt_compare E (field "password" (body req))
                   (field "passwordDigest" user) x1 = (Normal verdict, x2) /\
    truthy verdict = true /\
    jwt_sign E (JObj [("id", field "id" user); ("email", field "email" user)])
             (APP_SECRET E) x2 = (Normal token, ext w') /\
    statusCode (res w') = statusCode (res w) /\
    sent (res w') =
      Some (JObj [("user", JObj [("id", field "id" user);
                                 ("email", field "email" user)]);
                  ("token", token)]).
Proof.
  apply (Login_answers_after_truthy_comparison Ref.Store Ref.demo
           (Ref.request Ref.john) (Ref.start Ref.registered)).
  reflexivity.
Defined.

Lemma Login_rethrows_lookup_error_witness :
  Login (Faulty.db_down (Raised "ECONNREFUSED")) (Ref.request Ref.john)
        (Ref.start Ref.registered)
  = (Throw (Raised "ECONNREFUSED"),
     mkWorld Ref.registered fresh_res
       ([] ++ [CallFindOne (by_email (JStr "john@mail.com"))]) 0).
Proof.
  apply (Login_rethrows_lookup_error Ref.Store
           (Faulty.db_down (Raised "ECONNREFUSED"))
           (Ref.request Ref.john) (Ref.start Ref.registered));
    reflexivity.
Defined.

Lemma Login_rethrows_compare_error_witness :
  exists digest,
    Login (Faulty.hasher_down (Raised "hash unavailable"))
          (Ref.request Ref.john) (Ref.start Ref.registered)
    = (Throw (Raised "hash unavailable"),
       mkWorld Ref.registered fresh_res
         ([] ++ [CallFindOne (by_email (JStr "john@mail.com"));
                 CallCompare (JStr "1234") digest]) 0).
Proof.
  eexists.
  eapply (Login_rethrows_compare_error Ref.Store
            (Faulty.hasher_down (Raised "hash unavailable"))
            (Ref.request Ref.john) (Ref.start Ref.registered)
            (JStr "john@mail.com")
            (default JNull (head (Ref.rows Ref.registered))));
    reflexivity.
Defined.

Lemma Login_rethrows_sign_error_witness :
  exists w',
    Login (Faulty.signer_down (Raised "no key")) (Ref.request Ref.john)
          (Ref.start Ref.registered) = (Throw (Raised "no key"), w') /\
    res w' = fresh_res /\
    ext w' = Ref.registered /\
    last (trace w') =
      Some (CallSign (JObj [("id", JNum 1); ("email", JStr "john@mail.com")])
                     (JStr "supersecretkey")).
Proof.
  eapply (Login_rethrows_sign_error Ref.Store
            (Faulty.signer_down (Raised "no key"))
            (Ref.request Ref.john) (Ref.start Ref.registered)
            (JStr "john@mail.com")
            (default JNull (head (Ref.rows Ref.registered))));
    reflexivity.
Defined.

Lemma Login_missing_body_witness :
  exists msg,
    Login Ref.demo (Ref.request JUndefined) (Ref.start Ref.registered)
    = (Throw (TypeError msg), Ref.start Ref.registered).
Proof.
  apply (Login_missing_body Ref.Store Ref.demo (Ref.request JUndefined)
           (Ref.start Ref.registered)).
  left. reflexivity.
Defined.

Lemma Login_reads_email_and_password_only_witness :
  Login Ref.demo (Ref.request Ref.john) (Ref.start Ref.registered)
  = Login Ref.demo
      (mkReq {[ "authorization" := "Bearer x" ]}
             (JObj [("password", JStr "1234"); ("admin", JBool true);
                    ("email", JStr "john@mail.com")]))
      (Ref.start Ref.registered).
Proof.
  apply (Login_reads_email_and_password_only Ref.Store Ref.demo);
    reflexivity.
Defined.

Lemma Register_throw_keeps_response_witness :
  let w' := snd (Register Ref.demo (Ref.request Ref.john)
                          (Ref.start Ref.registered)) in
  res w' = fresh_res /\ next_calls w' = 0%nat.
Proof.
  apply (Register_throw_keeps_response Ref.Store Ref.demo
           (Ref.request Ref.john) (Ref.start Ref.registered) _
           (Raised "SequelizeUniqueConstraintError")).
  reflexivity.
Defined.

Lemma Register_answers_after_creation_witness :
  let E := Ref.demo in
  let req := Ref.request Ref.john in
  let w := Ref.start Ref.empty in
  let w' := snd (Register E req w) in
  exists digest x1 user,
    bcrypt_hash E (field "password" (body req)) (SALT_ROUNDS E) (ext w)
      = (Normal digest, x1) /\
    User_create E
      (user_values (field "email" (body req)) digest
                   (field "name" (body req))) x1
      = (Normal user, ext w') /\
    sent (res w') = Some user /\
    statusCode (res w') = statusCode (res w).
Proof.
  apply (Register_answers_after_creation Ref.Store Ref.demo
           (Ref.request Ref.john) (Ref.start Ref.empty)).
  reflexivity.
Defined.

Lemma Register_rethrows_hash_error_witness :
  Register (Faulty.hasher_down (Raised "hash unavailable"))
           (Ref.request Ref.john) (Ref.start Ref.empty)
  = (Throw (Raised "hash unavailable"),
     mkWorld Ref.empty fresh_res ([] ++ [CallHash (JStr "1234") (JNum 12)]) 0).
Proof.
  apply (Register_rethrows_hash_error Ref.Store
           (Faulty.hasher_down (Raised "hash unavailable"))
           (Ref.request Ref.john) (Ref.start Ref.empty)
           (JStr "john@mail.com"));
    reflexivity.
Defined.

Lemma Register_missing_body_witness :
  exists msg,
    Register Ref.demo (Ref.request JNull) (Ref.start Ref.empty)
    = (Throw (TypeError msg), Ref.start Ref.empty).
Proof.
  apply (Register_missing_body Ref.Store Ref.demo (Ref.request JNull)
           (Ref.start Ref.empty)).
  right. reflexivity.
Defined.

Lemma up_seeds_five_posts_witness :
  let st := Seeder.mkState (0%nat, []) [] in
  exists posts,
    fst (Seeder.up Seeder.demo st) = Normal tt /\
    last (Seeder.log (snd (Seeder.up Seeder.demo st)))
      = Some (Seeder.BulkInsert "posts" posts) /\
    length posts = 5%nat /\
    Forall (fun p => field_names p = Seeder.post_fields) posts.
Proof.
  apply (up_seeds_five_posts (nat * list JsVal) Seeder.demo
           (Seeder.mkState (0%nat, []) []));
    intros; eexists; reflexivity.
Defined.

(** The seeder on the counting generators: five rows arrive in the
    table, and [down] empties it. *)
Example up_then_down :
  let st := Seeder.mkState (0%nat, []) [] in
  let seeded := snd (Seeder.up Seeder.demo st) in
  length (snd (Seeder.outside seeded)) = 5%nat /\
  snd (Seeder.outside (snd (Seeder.down Seeder.demo seeded))) = [] /\
  last (Seeder.log (snd (Seeder.down Seeder.demo seeded)))
    = Some (Seeder.BulkDelete "posts").
Proof. vm_compute. repeat split; reflexivity. Qed.
